(** * SimpleBlog: posts, comments and their REST handlers

    A shallow embedding of [blog/api/models.py], [blog/api/serializers.py]
    and [blog/api/views.py].  The two tables are finite maps from primary
    key to row, a model instance is a pair of its primary key and its row,
    and every function that touches the database is a computation in a
    state-and-exception monad whose state survives an exception: the
    project runs in autocommit mode, each [save()] is its own write and
    nothing wraps a request in a transaction.

    The parts of Django and of Django REST framework the source calls
    (managers, querysets, [save], [delete], [get_object_or_404],
    [ModelSerializer], the generic views) are written out below next to the
    source lines that use them.  Request bodies and keyword dictionaries
    are typed: a key is a field of the model and its value has the type of
    that field, so unknown keys and values of another JSON type are not
    represented.  A string stands for a Python [str] whose characters
    have code points below 256, one [ascii] per character, so its length
    is its number of characters.  The database is the one a new Django
    project starts with (SQLite): an INSERT with an explicit key stores
    that key, foreign keys are enforced, and an integer outside 64 bits is
    refused as the parameter of a query. *)

From Stdlib Require Import Ascii DecimalString DecimalN.
From stdpp Require Import gmap strings list sorting.

Local Open Scope Z_scope.

(** ** models.py *)

Module Post.
(** [class Post(models.Model)]: title, content, created_at, updated_at. *)
Record t := mk {
  title : string;
  content : string;
  created_at : Z;
  updated_at : Z
}.
(** [title = models.CharField(max_length=100)] *)
Definition title_max_length : nat := 100.
End Post.

Module Comment.
(** [class Comment(models.Model)]: post (foreign key), author, content,
    created_at, updated_at. *)
Record t := mk {
  post_id : Z;
  author : string;
  content : string;
  created_at : Z;
  updated_at : Z
}.
(** [author = models.CharField(max_length=50)] *)
Definition author_max_length : nat := 50.
End Comment.

(** A model instance: the primary key ([id]) and the other fields. *)
Abbreviation PostInstance := (Z * Post.t)%type.
Abbreviation CommentInstance := (Z * Comment.t)%type.

(** ** The database *)

(** Two tables, the two AUTOINCREMENT sequences (largest key ever handed
    out) and the server clock read by [auto_now] and [auto_now_add]. *)
Record Store := mkStore {
  posts : gmap Z Post.t;
  comments : gmap Z Comment.t;
  post_seq : Z;
  comment_seq : Z;
  now : Z
}.

Definition empty_store (clock : Z) : Store :=
  mkStore ∅ ∅ 0 0 clock.

Definition set_posts (f : gmap Z Post.t → gmap Z Post.t) (st : Store) : Store :=
  mkStore (f (posts st)) (comments st) (post_seq st) (comment_seq st) (now st).
Definition set_comments (f : gmap Z Comment.t → gmap Z Comment.t) (st : Store) : Store :=
  mkStore (posts st) (f (comments st)) (post_seq st) (comment_seq st) (now st).
Definition set_post_seq (n : Z) (st : Store) : Store :=
  mkStore (posts st) (comments st) n (comment_seq st) (now st).
Definition set_comment_seq (n : Z) (st : Store) : Store :=
  mkStore (posts st) (comments st) (post_seq st) n (now st).
(** Time passing between two requests. *)
Definition advance_clock (d : Z) (st : Store) : Store :=
  mkStore (posts st) (comments st) (post_seq st) (comment_seq st) (now st + d).

(** The largest key of a table, or [lo] when none is larger. *)
Definition max_key {A} (lo : Z) (m : gmap Z A) : Z :=
  map_fold (λ k _ acc, Z.max k acc) lo m.

(** The key an INSERT without an explicit key receives: one more than the
    largest key the table holds or has ever handed out. *)
Definition next_pk {A} (seq : Z) (m : gmap Z A) : Z := 1 + max_key seq m.

(** ** Exceptions and the request monad *)

Inductive Exn :=
  | Http404                  (* django.http.Http404 *)
  | DoesNotExist             (* Model.DoesNotExist *)
  | MultipleObjectsReturned  (* Model.MultipleObjectsReturned *)
  | ValidationError          (* rest_framework ValidationError *)
  | TypeError                (* Python TypeError *)
  | IntegrityError           (* django.db.IntegrityError *)
  | OverflowError.           (* Python OverflowError, from the SQLite driver *)

Inductive result (A : Type) :=
  | Ok (a : A)
  | Raise (e : Exn).
Arguments Ok {A} a.
Arguments Raise {A} e.

(** A computation reads and writes the store and returns or raises; the
    store it leaves behind is kept in both cases. *)
Definition M (A : Type) : Type := Store → Store * result A.

Definition ret {A} (a : A) : M A := λ st, (st, Ok a).
Definition raise {A} (e : Exn) : M A := λ st, (st, Raise e).
Definition bind {A B} (c : M A) (k : A → M B) : M B :=
  λ st, match c st with
        | (st', Ok a) => k a st'
        | (st', Raise e) => (st', Raise e)
        end.
Definition gets {A} (f : Store → A) : M A := λ st, (st, Ok (f st)).
Definition modify (f : Store → Store) : M unit := λ st, (f st, Ok tt).

Declare Scope blog_scope.
Delimit Scope blog_scope with blog.
Notation "x <- c ;; k" := (bind c (λ x, k))
  (at level 100, c at next level, right associativity) : blog_scope.
Notation "c ;;; k" := (bind c (λ _, k))
  (at level 100, right associativity) : blog_scope.
Local Open Scope blog_scope.

(** A Python [for] loop whose body may raise: the first exception ends the
    loop, the writes of the earlier iterations stay. *)
Fixpoint for_each {A} (l : list A) (body : A → M unit) : M unit :=
  match l with
  | [] => ret tt
  | x :: l' => body x ;;; for_each l' body
  end.

Definition run {A} (c : M A) (st : Store) : Store * result A := c st.
Definition exec {A} (c : M A) (st : Store) : Store := (c st).1.
Definition eval {A} (c : M A) (st : Store) : result A := (c st).2.

(** ** The object-relational mapper *)

(** A queryset is lazy: it denotes a list of instances once it meets a
    store. *)
Definition QuerySet (A : Type) : Type := Store → list (Z * A).

(** [Post.objects.all()] and [Comment.objects.all()] *)
Definition Post_objects_all : QuerySet Post.t := λ st, map_to_list (posts st).
Definition Comment_objects_all : QuerySet Comment.t := λ st, map_to_list (comments st).

(** [.filter(post_id=p)], also written [.filter(post=instance)] *)
Definition filter_post_id (p : Z) (qs : QuerySet Comment.t) : QuerySet Comment.t :=
  λ st, filter (λ c : CommentInstance, Comment.post_id c.2 = p) (qs st).

(** [.filter(pk=k)], also written [.filter(id=k)] *)
Definition filter_pk {A} (k : Z) (qs : QuerySet A) : QuerySet A :=
  λ st, filter (λ x : Z * A, x.1 = k) (qs st).

(** The order of [.order_by("-created_at")]: [a] may stand before [b]. *)
Definition newer_first (a b : CommentInstance) : Prop :=
  Comment.created_at b.2 ≤ Comment.created_at a.2.

#[global] Instance newer_first_dec : RelDecision newer_first.
Proof. intros a b. unfold newer_first. apply _. Defined.

Definition order_by_created_at_desc (qs : QuerySet Comment.t) : QuerySet Comment.t :=
  λ st, merge_sort newer_first (qs st).

(** [queryset.get()]: the one instance, or an exception. *)
Definition qs_get {A} (qs : QuerySet A) : M (Z * A) :=
  λ st, match qs st with
        | [] => (st, Raise DoesNotExist)
        | [x] => (st, Ok x)
        | _ :: _ :: _ => (st, Raise MultipleObjectsReturned)
        end.

(** [get_object_or_404(queryset, pk=k)]: [DoesNotExist] becomes [Http404]. *)
Definition get_object_or_404 {A} (qs : QuerySet A) (k : Z) : M (Z * A) :=
  λ st, match qs_get (filter_pk k qs) st with
        | (st', Raise DoesNotExist) => (st', Raise Http404)
        | r => r
        end.

(** The integers SQLite stores and takes as parameters: 64 bits, signed. *)
Definition sqlite_integer (n : Z) : Prop := - 2 ^ 63 ≤ n < 2 ^ 63.

(** Running a query that filters on [post_id=n]: the driver binds [n] and
    raises [OverflowError] when it does not fit, before any row is read.
    (A lookup by primary key is different: Django knows the range of the
    key and answers an out-of-range value with no row, without a query.) *)
Definition bind_parameter (n : Z) : M unit :=
  if decide (sqlite_integer n) then ret tt else raise OverflowError.

(** [instance.save()] on a post.  [updated_at] has [auto_now=True] and is
    set on every save; [created_at] has [auto_now_add=True] and is set when
    the row is inserted.  Returns the instance as saved. *)
Definition Post_save (p : PostInstance) : M PostInstance :=
  λ st,
    let row :=
      match posts st !! p.1 with
      | Some _ => Post.mk (Post.title p.2) (Post.content p.2)
                          (Post.created_at p.2) (now st)
      | None => Post.mk (Post.title p.2) (Post.content p.2) (now st) (now st)
      end in
    (set_posts (insert p.1 row) (set_post_seq (Z.max (post_seq st) p.1) st),
     Ok (p.1, row)).

(** [Post.objects.create(title=..., content=...)] *)
Definition Post_objects_create (title content : string) : M PostInstance :=
  λ st,
    let k := next_pk (post_seq st) (posts st) in
    let row := Post.mk title content (now st) (now st) in
    (set_posts (insert k row) (set_post_seq k st), Ok (k, row)).

(** [instance.save()] on a comment.  The foreign key must name a stored
    post, or the database refuses the write. *)
Definition Comment_save (c : CommentInstance) : M CommentInstance :=
  λ st,
    match posts st !! Comment.post_id c.2 with
    | None => (st, Raise IntegrityError)
    | Some _ =>
      let row :=
        match comments st !! c.1 with
        | Some _ => Comment.mk (Comment.post_id c.2) (Comment.author c.2)
                      (Comment.content c.2) (Comment.created_at c.2) (now st)
        | None => Comment.mk (Comment.post_id c.2) (Comment.author c.2)
                      (Comment.content c.2) (now st) (now st)
        end in
      (set_comments (insert c.1 row)
         (set_comment_seq (Z.max (comment_seq st) c.1) st),
       Ok (c.1, row))
    end.

(** The keyword arguments a comment can be built or changed from: a Python
    dict whose keys are fields of [Comment].  A field is [None] when its
    key is absent (for [id], also when its value is Python's [None]);
    [cd_post] holds the primary key of the [Post] instance given. *)
Record CommentData := mkCommentData {
  cd_id : option Z;
  cd_post : option Z;
  cd_author : option string;
  cd_content : option string;
  cd_created_at : option Z;
  cd_updated_at : option Z
}.

(** [Comment.objects.create] called with the keyword arguments [kw]: build the instance (a missing
    [CharField] or [TextField] defaults to the empty string), then
    [save(force_insert=True)].  Without a post the NOT NULL constraint
    fails; with a post that is not stored the foreign key fails; with an
    explicit key that is taken the primary key fails.  Both timestamps are
    set by the server, whatever [kw] carries. *)
Definition Comment_objects_create (kw : CommentData) : M CommentInstance :=
  λ st,
    match cd_post kw with
    | None => (st, Raise IntegrityError)
    | Some p =>
      match posts st !! p with
      | None => (st, Raise IntegrityError)
      | Some _ =>
        let row := Comment.mk p (default ""%string (cd_author kw))
                     (default ""%string (cd_content kw)) (now st) (now st) in
        match cd_id kw with
        | None =>
          let k := next_pk (comment_seq st) (comments st) in
          (set_comments (insert k row) (set_comment_seq k st), Ok (k, row))
        | Some k =>
          match comments st !! k with
          | Some _ => (st, Raise IntegrityError)
          | None =>
            (set_comments (insert k row)
               (set_comment_seq (Z.max (comment_seq st) k) st),
             Ok (k, row))
          end
        end
      end
    end.

(** [post.delete()]: [on_delete=models.CASCADE] on [Comment.post] removes
    the comments of the post with it. *)
Definition Post_delete (p : PostInstance) : M unit :=
  modify (λ st,
    set_posts (delete p.1)
      (set_comments (filter (λ kc : Z * Comment.t, Comment.post_id kc.2 ≠ p.1)) st)).

(** [comment.delete()] *)
Definition Comment_delete (c : CommentInstance) : M unit :=
  modify (set_comments (delete c.1)).

(** ** Serializer fields (Django REST framework) *)

(** The characters below 256 that Python's [str.isspace] accepts and
    [str.strip()] removes: tab to carriage return, the four separators
    28 to 31, the space, NEL (133) and the no-break space (160). *)
Definition is_whitespace (a : Ascii.ascii) : bool :=
  let n := Ascii.nat_of_ascii a in
  ((9 <=? n) && (n <=? 13) || (28 <=? n) && (n <=? 32)
   || (n =? 133) || (n =? 160))%nat.

(** Whether a string holds a null character. *)
Fixpoint has_null (s : string) : bool :=
  match s with
  | String a s' => (Ascii.nat_of_ascii a =? 0)%nat || has_null s'
  | EmptyString => false
  end.

Fixpoint lstrip (s : string) : string :=
  match s with
  | String a s' => if is_whitespace a then lstrip s' else s
  | EmptyString => EmptyString
  end.

Definition strip (s : string) : string :=
  String.rev (lstrip (String.rev (lstrip s))).

(** [CharField(max_length=n)]: the value is stripped, a blank value is
    refused, a value with a null character is refused
    ([ProhibitNullCharactersValidator]), a value of more than [n]
    characters is refused.  A model [TextField] becomes a [CharField]
    without [max_length]. *)
Definition CharField (max_length : option nat) (data : string) : result string :=
  let value := strip data in
  if decide (value = ""%string) then Raise ValidationError
  else if has_null value then Raise ValidationError
  else match max_length with
       | Some n => if (n <? String.length value)%nat then Raise ValidationError
                   else Ok value
       | None => Ok value
       end.

(** [PrimaryKeyRelatedField(queryset=Post.objects.all())]: the key must be
    the key of a stored post; the validated value is that post. *)
Definition PrimaryKeyRelatedField (st : Store) (data : Z) : result Z :=
  match posts st !! data with
  | Some _ => Ok data
  | None => Raise ValidationError
  end.

(** One writable field of a serializer: a missing key is an error unless
    the update is partial (PATCH), in which case the field is skipped. *)
Definition run_field {A B} (partial : bool) (data : option A)
    (clean : A → result B) : result (option B) :=
  match data with
  | None => if partial then Ok None else Raise ValidationError
  | Some v => match clean v with
              | Ok b => Ok (Some b)
              | Raise e => Raise e
              end
  end.

(** ** serializers.py *)

(** The JSON body of a comment request, reduced to the keys the serializer
    reads.  [fields = "__all__"] makes every model field a serializer
    field; [id], [created_at] and [updated_at] are not editable and so
    read-only, which leaves [post], [author] and [content] writable, and
    required, since none of them has a default. *)
Record CommentBody := mkCommentBody {
  cb_post : option Z;
  cb_author : option string;
  cb_content : option string
}.

Module CommentSerializer.
(** [serializer.is_valid(raise_exception=True)], then
    [serializer.validated_data]. *)
Definition is_valid (partial : bool) (data : CommentBody) : M CommentData :=
  λ st,
    match run_field partial (cb_post data) (PrimaryKeyRelatedField st),
          run_field partial (cb_author data)
            (CharField (Some Comment.author_max_length)),
          run_field partial (cb_content data) (CharField None) with
    | Ok p, Ok a, Ok c => (st, Ok (mkCommentData None p a c None None))
    | _, _, _ => (st, Raise ValidationError)
    end.

(** [for attr, value in data.items(): setattr(instance, attr, value)] *)
Definition setattrs (instance : CommentInstance) (data : CommentData)
    : CommentInstance :=
  (default instance.1 (cd_id data),
   Comment.mk (default (Comment.post_id instance.2) (cd_post data))
              (default (Comment.author instance.2) (cd_author data))
              (default (Comment.content instance.2) (cd_content data))
              (default (Comment.created_at instance.2) (cd_created_at data))
              (default (Comment.updated_at instance.2) (cd_updated_at data))).

(** [ModelSerializer.create]: [Comment.objects.create] with the
    validated data as keyword arguments. *)
Definition create (validated_data : CommentData) : M CommentInstance :=
  Comment_objects_create validated_data.

(** [ModelSerializer.update]: set every validated attribute, save. *)
Definition update (instance : CommentInstance) (validated_data : CommentData)
    : M CommentInstance :=
  Comment_save (setattrs instance validated_data).

(** [serializer.save(post=post)] on a serializer built without an
    instance: the keyword argument overrides the validated value. *)
Definition save_with_post (validated_data : CommentData) (post : PostInstance)
    : M CommentInstance :=
  create (mkCommentData (cd_id validated_data) (Some post.1)
            (cd_author validated_data) (cd_content validated_data)
            (cd_created_at validated_data) (cd_updated_at validated_data)).
End CommentSerializer.

(** The JSON body of a post request: [title], [content] and the nested
    [comments] list, each element a dict of comment fields. *)
Record PostBody := mkPostBody {
  pb_title : option string;
  pb_content : option string;
  pb_comments : option (list CommentData)
}.

(** The [validated_data] dict handed to [PostSerializer.update]. *)
Record PostData := mkPostData {
  pd_title : option string;
  pd_content : option string;
  pd_comments : option (list CommentData)
}.

(** Python's truth value of [comment_data.get("id", None)], as the test
    [if comment_id:] sees it: [None] and [0] are false; a true value is
    handed on. *)
Definition truthy (comment_id : option Z) : option Z :=
  match comment_id with
  | Some 0 => None
  | Some i => Some i
  | None => None
  end.

Module PostSerializer.
(** [comments = CommentSerializer(many=True, read_only=True)]: a
    read-only field is left out of the writable fields, so whatever the
    body carries under [comments] never reaches [validated_data]. *)
Definition is_valid (partial : bool) (data : PostBody) : M PostData :=
  λ st,
    match run_field partial (pb_title data)
            (CharField (Some Post.title_max_length)),
          run_field partial (pb_content data) (CharField None) with
    | Ok t, Ok c => (st, Ok (mkPostData t c None))
    | _, _ => (st, Raise ValidationError)
    end.

Definition setattrs (instance : PostInstance) (data : PostData) : PostInstance :=
  (instance.1,
   Post.mk (default (Post.title instance.2) (pd_title data))
           (default (Post.content instance.2) (pd_content data))
           (Post.created_at instance.2) (Post.updated_at instance.2)).

(** [ModelSerializer.create] *)
Definition create (validated_data : PostData) : M PostInstance :=
  Post_objects_create (default ""%string (pd_title validated_data))
                      (default ""%string (pd_content validated_data)).

(** [super().update(instance, validated_data)] *)
Definition super_update (instance : PostInstance) (validated_data : PostData)
    : M PostInstance :=
  Post_save (setattrs instance validated_data).

(** [Comment.objects.get(id=comment_id, post=instance)] *)
Definition get_comment (comment_id : Z) (instance : PostInstance)
    : M CommentInstance :=
  qs_get (filter_pk comment_id (filter_post_id instance.1 Comment_objects_all)).

(** [Comment.objects.create(post=instance, ...)] with the items of
    [comment_data] as further keyword arguments: Python refuses the call
    when [comment_data] has a [post] key of its own. *)
Definition create_comment (instance : PostInstance) (comment_data : CommentData)
    : M CommentInstance :=
  match cd_post comment_data with
  | Some _ => raise TypeError
  | None =>
    Comment_objects_create
      (mkCommentData (cd_id comment_data) (Some instance.1)
         (cd_author comment_data) (cd_content comment_data)
         (cd_created_at comment_data) (cd_updated_at comment_data))
  end.

(** The body of the loop over [comments_data]. *)
Definition merge_comment (instance : PostInstance) (comment_data : CommentData)
    : M unit :=
  let comment_id := cd_id comment_data in
  match truthy comment_id with
  | Some comment_id =>
    comment <- get_comment comment_id instance ;;
    let comment := CommentSerializer.setattrs comment comment_data in
    Comment_save comment ;;;
    ret tt
  | None =>
    create_comment instance comment_data ;;;
    ret tt
  end.

(** [PostSerializer.update] *)
Definition update (instance : PostInstance) (validated_data : PostData)
    : M PostInstance :=
  let comments_data := pd_comments validated_data in
  let validated_data :=
    mkPostData (pd_title validated_data) (pd_content validated_data) None in
  instance <- super_update instance validated_data ;;
  match comments_data with
  | Some comments_data => for_each comments_data (merge_comment instance)
  | None => ret tt
  end ;;;
  ret instance.

(** [serializer.data]: the post with its nested comments,
    [instance.comments.all()]. *)
Definition data (instance : PostInstance) : M (PostInstance * list CommentInstance) :=
  gets (λ st, (instance, filter_post_id instance.1 Comment_objects_all st)).
End PostSerializer.

(** ** views.py *)

(** What the exception handler of the framework answers: the status of the
    response on success, 404 for [Http404], 400 for a validation error, and
    500 for an exception nobody catches. *)
Definition status_code {A} (r : result (Z * A)) : Z :=
  match r with
  | Ok (status, _) => status
  | Raise Http404 => 404
  | Raise ValidationError => 400
  | Raise _ => 500
  end.

Module PostListCreateAPIView.
(** [queryset = Post.objects.all()] *)
Definition get_queryset : QuerySet Post.t := Post_objects_all.

(** GET /posts/ *)
Definition list_ : M (Z * list (PostInstance * list CommentInstance)) :=
  gets (λ st,
    (200, (λ p, (p, filter_post_id p.1 Comment_objects_all st)) <$> get_queryset st)).

(** POST /posts/ *)
Definition create (data : PostBody) : M (Z * (PostInstance * list CommentInstance)) :=
  validated_data <- PostSerializer.is_valid false data ;;
  instance <- PostSerializer.create validated_data ;;
  repr <- PostSerializer.data instance ;;
  ret (201, repr).
End PostListCreateAPIView.

Module PostRetrieveUpdateDestroyAPIView.
Definition get_queryset : QuerySet Post.t := Post_objects_all.

Definition get_object (pk : Z) : M PostInstance :=
  get_object_or_404 get_queryset pk.

(** GET /posts/{pk}/ *)
Definition retrieve (pk : Z) : M (Z * (PostInstance * list CommentInstance)) :=
  instance <- get_object pk ;;
  repr <- PostSerializer.data instance ;;
  ret (200, repr).

(** PUT /posts/{pk}/ ([partial = false]) and PATCH ([partial = true]) *)
Definition update (partial : bool) (pk : Z) (data : PostBody)
    : M (Z * (PostInstance * list CommentInstance)) :=
  instance <- get_object pk ;;
  validated_data <- PostSerializer.is_valid partial data ;;
  instance <- PostSerializer.update instance validated_data ;;
  repr <- PostSerializer.data instance ;;
  ret (200, repr).

(** DELETE /posts/{pk}/ *)
Definition destroy (pk : Z) : M (Z * unit) :=
  instance <- get_object pk ;;
  Post_delete instance ;;;
  ret (204, tt).
End PostRetrieveUpdateDestroyAPIView.

Module CommentListCreateAPIView.
(** [Comment.objects.filter(post_id=self.kwargs["post_pk"])
      .order_by("-created_at")]: the rows the database returns for a
    [post_pk] it accepts as a parameter (see [bind_parameter]). *)
Definition get_queryset (post_pk : Z) : QuerySet Comment.t :=
  order_by_created_at_desc (filter_post_id post_pk Comment_objects_all).

(** [post = get_object_or_404(Post, id=self.kwargs["post_pk"])],
    [serializer.save(post=post)] *)
Definition perform_create (post_pk : Z) (validated_data : CommentData)
    : M CommentInstance :=
  post <- get_object_or_404 Post_objects_all post_pk ;;
  CommentSerializer.save_with_post validated_data post.

(** GET /posts/{post_pk}/comments/ *)
Definition list_ (post_pk : Z) : M (Z * list CommentInstance) :=
  gets (λ st, (200, get_queryset post_pk st)).

(** POST /posts/{post_pk}/comments/: the body is validated first, then
    [perform_create] runs. *)
Definition create (post_pk : Z) (data : CommentBody) : M (Z * CommentInstance) :=
  validated_data <- CommentSerializer.is_valid false data ;;
  instance <- perform_create post_pk validated_data ;;
  ret (201, instance).
End CommentListCreateAPIView.

Module CommentRetrieveUpdateDestroyAPIView.
(** [Comment.objects.filter(post_id=self.kwargs["post_pk"])]: the rows
    the database returns for a [post_pk] it accepts as a parameter (see
    [bind_parameter]). *)
Definition get_queryset (post_pk : Z) : QuerySet Comment.t :=
  filter_post_id post_pk Comment_objects_all.

(** [get_object_or_404(self.get_queryset(), pk=self.kwargs["pk"])] *)
Definition get_object (post_pk pk : Z) : M CommentInstance :=
  get_object_or_404 (get_queryset post_pk) pk.

(** GET /posts/{post_pk}/comments/{pk}/ *)
Definition retrieve (post_pk pk : Z) : M (Z * CommentInstance) :=
  instance <- get_object post_pk pk ;;
  ret (200, instance).

(** PUT and PATCH /posts/{post_pk}/comments/{pk}/: the object is looked
    up, the body validated, and [serializer.save()] updates. *)
Definition update (partial : bool) (post_pk pk : Z) (data : CommentBody)
    : M (Z * CommentInstance) :=
  instance <- get_object post_pk pk ;;
  validated_data <- CommentSerializer.is_valid partial data ;;
  instance <- CommentSerializer.update instance validated_data ;;
  ret (200, instance).

(** DELETE /posts/{post_pk}/comments/{pk}/ *)
Definition destroy (post_pk pk : Z) : M (Z * unit) :=
  instance <- get_object post_pk pk ;;
  Comment_delete instance ;;;
  ret (204, tt).
End CommentRetrieveUpdateDestroyAPIView.

(** ** Well-formed stores and sample stores *)

(** Referential integrity: the parent of every stored comment is a stored
    post. *)
Definition foreign_keys_ok (st : Store) : Prop :=
  map_Forall (λ _ c, is_Some (posts st !! Comment.post_id c)) (comments st).

(** A computation keeps a property of the store, whether it returns or
    raises. *)
Definition preserves {A} (I : Store → Prop) (c : M A) : Prop :=
  ∀ st, I st → I (c st).1.

(** A computation that only reads. *)
Definition read_only {A} (c : M A) : Prop := ∀ st, (c st).1 = st.

(** A blog after POST /posts/ with title "A" and content "B" at time 10:
    one post, with identifier 1. *)
Definition one_post : Store :=
  exec (PostListCreateAPIView.create
          (mkPostBody (Some "A"%string) (Some "B"%string) None))
    (empty_store 10).

(** A blog with two posts, made through the API at times 10 and 11. *)
Definition two_posts : Store :=
  exec (PostListCreateAPIView.create
          (mkPostBody (Some "C"%string) (Some "D"%string) None))
    (advance_clock 1 one_post).

(** The same blog after two comments on post 1, made at times 12 and 13. *)
Definition two_comments : Store :=
  exec (CommentListCreateAPIView.create 1
          (mkCommentBody (Some 1) (Some "y"%string) (Some "yo"%string)))
    (advance_clock 1
       (exec (CommentListCreateAPIView.create 1
                (mkCommentBody (Some 1) (Some "x"%string) (Some "hi"%string)))
          (advance_clock 1 two_posts))).

(** A PATCH body for post 1 of [two_comments] that carries a nested
    [comments] list: an element naming comment 1, an element without an
    identifier, and an element naming a comment that does not exist. *)
Definition nested_body : PostBody :=
  mkPostBody None None
    (Some [mkCommentData (Some 1) None None (Some "edited"%string) None None;
           mkCommentData None None (Some "z"%string) (Some "new"%string) None None;
           mkCommentData (Some 99) None None (Some "ghost"%string) None None]).

(** ** urls.py *)

(** The four entries of [urlpatterns], by name, with the arguments their
    converters capture. *)
Inductive Route :=
  | post_list
  | post_detail (pk : Z)
  | comment_list (post_pk : Z)
  | comment_detail (post_pk pk : Z).

(** The [int] converter of a [path()] route: the segment must match
    [[0-9]+]; [to_python] is [int(value)]. *)
Definition int_to_python (segment : string) : option Z :=
  match NilZero.uint_of_string segment with
  | Some d => Some (Z.of_N (N.of_uint d))
  | None => None
  end.

(** [to_url] is [str(value)]; [reverse] keeps a candidate only when the
    text matches the converter, which rules negative numbers out. *)
Definition int_to_url (value : Z) : option string :=
  if decide (0 ≤ value)
  then Some (NilZero.string_of_uint (N.to_uint (Z.to_N value)))
  else None.

(** The segments of a path between its slashes; a trailing slash leaves an
    empty last segment. *)
Fixpoint split_slash (path : string) : list string :=
  match path with
  | EmptyString => [EmptyString]
  | String c rest =>
    if Ascii.eqb c "/"%char then EmptyString :: split_slash rest
    else match split_slash rest with
         | seg :: segs => String c seg :: segs
         | [] => [String c EmptyString]
         end
  end.

(** Whether a segment is free of slashes. *)
Fixpoint no_slash (segment : string) : bool :=
  match segment with
  | EmptyString => true
  | String c rest => negb (Ascii.eqb c "/"%char) && no_slash rest
  end.

(** [resolve(path)] against [urlpatterns]; the path is taken relative to
    the place this URL configuration is included at.  Each route is
    anchored at both ends. *)
Definition resolve (path : string) : option Route :=
  match split_slash path with
  | [posts_; end_] =>
    if decide (posts_ = "posts"%string ∧ end_ = ""%string)
    then Some post_list else None
  | [posts_; pk; end_] =>
    if decide (posts_ = "posts"%string ∧ end_ = ""%string)
    then post_detail <$> int_to_python pk else None
  | [posts_; post_pk; comments_; end_] =>
    if decide (posts_ = "posts"%string ∧ comments_ = "comments"%string
               ∧ end_ = ""%string)
    then comment_list <$> int_to_python post_pk else None
  | [posts_; post_pk; comments_; pk; end_] =>
    if decide (posts_ = "posts"%string ∧ comments_ = "comments"%string
               ∧ end_ = ""%string)
    then match int_to_python post_pk, int_to_python pk with
         | Some post_pk, Some pk => Some (comment_detail post_pk pk)
         | _, _ => None
         end
    else None
  | _ => None
  end.

(** [reverse(name, kwargs=...)] *)
Definition reverse (route : Route) : option string :=
  match route with
  | post_list => Some "posts/"%string
  | post_detail pk =>
    match int_to_url pk with
    | Some pk => Some ("posts/" +:+ pk +:+ "/")
    | None => None
    end
  | comment_list post_pk =>
    match int_to_url post_pk with
    | Some post_pk => Some ("posts/" +:+ post_pk +:+ "/comments/")
    | None => None
    end
  | comment_detail post_pk pk =>
    match int_to_url post_pk, int_to_url pk with
    | Some post_pk, Some pk =>
      Some ("posts/" +:+ post_pk +:+ "/comments/" +:+ pk +:+ "/")
    | _, _ => None
    end
  end.

(** ** Requests *)

Inductive Method := GET | POST | PUT | PATCH | DELETE.

(** A JSON request body, as the two serializers read it: each takes the
    keys that are its writable fields and ignores the others. *)
Record Body := mkBody {
  b_title : option string;
  b_content : option string;
  b_comments : option (list CommentData);
  b_post : option Z;
  b_author : option string
}.

Definition post_body (body : Body) : PostBody :=
  mkPostBody (b_title body) (b_content body) (b_comments body).

Definition comment_body (body : Body) : CommentBody :=
  mkCommentBody (b_post body) (b_author body) (b_content body).

(** What a response carries. *)
Inductive Payload :=
  | JPosts (l : list (PostInstance * list CommentInstance))
  | JPost (p : PostInstance * list CommentInstance)
  | JComments (l : list CommentInstance)
  | JComment (c : CommentInstance)
  | JNothing.

Definition with_payload {A} (f : A → Payload) (c : M (Z * A)) : M (Z * Payload) :=
  r <- c ;; ret (r.1, f r.2).

(** A handler whose first step runs [Comment.objects.filter(post_id=n)]. *)
Definition filtering_on {A} (n : Z) (c : M A) : M A :=
  bind_parameter n ;;; c.
Global Arguments filtering_on : simpl never.

(** [View.as_view()]: the handler of the class for the method, when it has
    one.  [ListCreateAPIView] has [get] and [post];
    [RetrieveUpdateDestroyAPIView] has [get], [put], [patch] and
    [delete].  Listing comments runs the queryset of [get_queryset], and
    the handlers of a single comment start with [get_object], which runs
    it too: those bind [post_pk].  Creating a comment looks the post up by
    primary key and does not run that queryset. *)
Definition as_view (route : Route) (method : Method) (body : Body)
    : option (M (Z * Payload)) :=
  match route, method with
  | post_list, GET => Some (with_payload JPosts PostListCreateAPIView.list_)
  | post_list, POST =>
    Some (with_payload JPost (PostListCreateAPIView.create (post_body body)))
  | post_detail pk, GET =>
    Some (with_payload JPost (PostRetrieveUpdateDestroyAPIView.retrieve pk))
  | post_detail pk, PUT =>
    Some (with_payload JPost
            (PostRetrieveUpdateDestroyAPIView.update false pk (post_body body)))
  | post_detail pk, PATCH =>
    Some (with_payload JPost
            (PostRetrieveUpdateDestroyAPIView.update true pk (post_body body)))
  | post_detail pk, DELETE =>
    Some (with_payload (λ _, JNothing) (PostRetrieveUpdateDestroyAPIView.destroy pk))
  | comment_list post_pk, GET =>
    Some (filtering_on post_pk
            (with_payload JComments (CommentListCreateAPIView.list_ post_pk)))
  | comment_list post_pk, POST =>
    Some (with_payload JComment
            (CommentListCreateAPIView.create post_pk (comment_body body)))
  | comment_detail post_pk pk, GET =>
    Some (filtering_on post_pk
            (with_payload JComment
               (CommentRetrieveUpdateDestroyAPIView.retrieve post_pk pk)))
  | comment_detail post_pk pk, PUT =>
    Some (filtering_on post_pk
            (with_payload JComment
               (CommentRetrieveUpdateDestroyAPIView.update false post_pk pk
                  (comment_body body))))
  | comment_detail post_pk pk, PATCH =>
    Some (filtering_on post_pk
            (with_payload JComment
               (CommentRetrieveUpdateDestroyAPIView.update true post_pk pk
                  (comment_body body))))
  | comment_detail post_pk pk, DELETE =>
    Some (filtering_on post_pk
            (with_payload (λ _, JNothing)
               (CommentRetrieveUpdateDestroyAPIView.destroy post_pk pk)))
  | _, _ => None
  end.

(** One request, from the URL to the response: no route is 404, no handler
    for the method is 405, an exception becomes its status. *)
Definition respond (method : Method) (path : string) (body : Body)
    (st : Store) : Store * (Z * Payload) :=
  match resolve path with
  | None => (st, (404, JNothing))
  | Some route =>
    match as_view route method body with
    | None => (st, (405, JNothing))
    | Some view =>
      match view st with
      | (st', Ok response) => (st', response)
      | (st', Raise e) =>
        (st', (status_code (Raise e : result (Z * Payload)), JNothing))
      end
    end
  end.

(** The stores the API can be in: it starts empty, time passes, requests
    are answered. *)
Inductive reachable : Store → Prop :=
  | reachable_empty clock : reachable (empty_store clock)
  | reachable_tick d st :
      0 ≤ d → reachable st → reachable (advance_clock d st)
  | reachable_respond method path body st :
      reachable st → reachable (respond method path body st).1.

(** What validation lets through: a title, an author, a text. *)
Definition valid_title (s : string) : Prop :=
  s ≠ ""%string ∧ (String.length s ≤ Post.title_max_length)%nat.
Definition valid_author (s : string) : Prop :=
  s ≠ ""%string ∧ (String.length s ≤ Comment.author_max_length)%nat.
Definition valid_text (s : string) : Prop := s ≠ ""%string.

(** Every stored row has fields validation would accept. *)
Definition fields_ok (st : Store) : Prop :=
  map_Forall (λ _ p, valid_title (Post.title p) ∧ valid_text (Post.content p))
    (posts st)
  ∧ map_Forall (λ _ c, valid_author (Comment.author c)
                       ∧ valid_text (Comment.content c))
      (comments st).

(** Every stored row was created no later than it was last updated, and
    neither lies in the future. *)
Definition timestamps_ok (st : Store) : Prop :=
  map_Forall (λ _ p, Post.created_at p ≤ Post.updated_at p ≤ now st) (posts st)
  ∧ map_Forall (λ _ c, Comment.created_at c ≤ Comment.updated_at c ≤ now st)
      (comments st).

(** The writes one request can make. *)
Inductive effect (st : Store) : Store → Prop :=
  | effect_none : effect st st
  | effect_post_insert k title content :
      posts st !! k = None → post_seq st < k →
      valid_title title → valid_text content →
      effect st
        (set_posts (insert k (Post.mk title content (now st) (now st)))
           (set_post_seq k st))
  | effect_post_update k row title content :
      posts st !! k = Some row →
      valid_title title ∨ title = Post.title row →
      valid_text content ∨ content = Post.content row →
      effect st
        (set_posts
           (insert k (Post.mk title content (Post.created_at row) (now st)))
           (set_post_seq (Z.max (post_seq st) k) st))
  | effect_comment_insert k p author content :
      comments st !! k = None → comment_seq st < k →
      is_Some (posts st !! p) →
      valid_author author → valid_text content →
      effect st
        (set_comments (insert k (Comment.mk p author content (now st) (now st)))
           (set_comment_seq k st))
  | effect_comment_update k row p author content :
      comments st !! k = Some row →
      is_Some (posts st !! p) →
      valid_author author ∨ author = Comment.author row →
      valid_text content ∨ content = Comment.content row →
      effect st
        (set_comments
           (insert k (Comment.mk p author content (Comment.created_at row) (now st)))
           (set_comment_seq (Z.max (comment_seq st) k) st))
  | effect_post_delete k :
      is_Some (posts st !! k) →
      effect st
        (set_posts (delete k)
           (set_comments
              (filter (λ kc : Z * Comment.t, Comment.post_id kc.2 ≠ k)) st))
  | effect_comment_delete k :
      is_Some (comments st !! k) →
      effect st (set_comments (delete k) st).

(** The rows of [st] are still stored in [st'], changed or not. *)
Definition keeps_rows (st st' : Store) : Prop :=
  (∀ k, is_Some (posts st !! k) → is_Some (posts st' !! k))
  ∧ (∀ k, is_Some (comments st !! k) → is_Some (comments st' !! k)).

(** A short session: a post is created at time 10 and a comment on it at
    time 11. *)
Definition sample_session : Store :=
  (respond POST "posts/1/comments/"
     (mkBody None (Some "hi"%string) None (Some 1) (Some "x"%string))
     (advance_clock 1
        (respond POST "posts/"
           (mkBody (Some "A"%string) (Some "B"%string) None None None)
           (empty_store 10)).1)).1.

(** * Properties *)

(** ** Keys *)

Section keys.
Context {A : Type}.
Implicit Types (m : gmap Z A) (l : list (Z * A)).

Lemma max_key_bounds lo m :
  lo ≤ max_key lo m ∧ ∀ k v, m !! k = Some v → k ≤ max_key lo m.
Proof.
  unfold max_key.
  apply (map_fold_weak_ind
           (λ r m, lo ≤ r ∧ ∀ k v, m !! k = Some v → k ≤ r)).
  - split; [lia|]. intros k v. by rewrite lookup_empty.
  - intros i x m' r _ [Hlo Hkeys]. split; [lia|].
    intros k v. rewrite lookup_insert. case_decide as Hik.
    + intros _. subst. lia.
    + intros Hk. specialize (Hkeys _ _ Hk). lia.
Qed.

(** The key of an INSERT is not in use and is above the sequence. *)
Lemma next_pk_fresh seq m : m !! next_pk seq m = None.
Proof.
  destruct (m !! next_pk seq m) eqn:Hk; [|done].
  apply (proj2 (max_key_bounds seq m)) in Hk. unfold next_pk in Hk. lia.
Qed.

Lemma next_pk_above seq m : seq < next_pk seq m.
Proof. pose proof (proj1 (max_key_bounds seq m)). unfold next_pk. lia. Qed.

(** Filtering a list with distinct keys by key leaves at most one row. *)
Lemma filter_key_absent (P : Z * A → Prop) `{!∀ x, Decision (P x)} l k :
  k ∉ l.*1 → filter (λ x : Z * A, x.1 = k) (filter P l) = [].
Proof.
  induction l as [|[k' v'] l IH]; [done|].
  rewrite fmap_cons, not_elem_of_cons. simpl. intros [Hne Hnot].
  rewrite (filter_cons P). destruct (decide (P (k', v'))).
  - rewrite filter_cons_False by (simpl; congruence). auto.
  - auto.
Qed.

Lemma filter_key_present (P : Z * A → Prop) `{!∀ x, Decision (P x)} l k v :
  NoDup l.*1 → (k, v) ∈ l →
  filter (λ x : Z * A, x.1 = k) (filter P l)
  = if decide (P (k, v)) then [(k, v)] else [].
Proof.
  induction l as [|[k' v'] l IH]; [by rewrite elem_of_nil|].
  rewrite fmap_cons, NoDup_cons, elem_of_cons. simpl.
  intros [Hnot Hnd] [Heq | Hin].
  - inversion Heq; subst k' v'. rewrite (filter_cons P).
    destruct (decide (P (k, v))).
    + rewrite filter_cons_True by done. by rewrite filter_key_absent.
    + by rewrite filter_key_absent.
  - assert (k' ≠ k) as Hne.
    { intros ->. apply Hnot. apply list_elem_of_fmap. by exists (k, v). }
    rewrite (filter_cons P). destruct (decide (P (k', v'))).
    + rewrite filter_cons_False by done. auto.
    + auto.
Qed.

(** A table filtered by a predicate and then by key. *)
Lemma filter_key_map_to_list (P : Z * A → Prop) `{!∀ x, Decision (P x)} m k :
  filter (λ x : Z * A, x.1 = k) (filter P (map_to_list m))
  = match m !! k with
    | Some v => if decide (P (k, v)) then [(k, v)] else []
    | None => []
    end.
Proof.
  destruct (m !! k) as [v|] eqn:Hk.
  - apply filter_key_present; [apply NoDup_fst_map_to_list|].
    by apply elem_of_map_to_list.
  - apply filter_key_absent. intros Hin.
    apply list_elem_of_fmap in Hin as [[k' v'] [-> Hin]].
    apply elem_of_map_to_list in Hin. simpl in *. congruence.
Qed.

Lemma filter_key_map_to_list_all m k :
  filter (λ x : Z * A, x.1 = k) (map_to_list m)
  = match m !! k with Some v => [(k, v)] | None => [] end.
Proof.
  assert (∀ l, filter (λ _ : Z * A, True) l = l) as Hall.
  { induction l as [|x l IH]; [done|].
    rewrite filter_cons_True by done. by rewrite IH. }
  pose proof (filter_key_map_to_list (λ _, True) m k) as H.
  rewrite Hall in H. rewrite H. by destruct (m !! k).
Qed.
End keys.

(** ** Lookups *)

Ltac unfold_monad :=
  unfold run, exec, eval, bind, ret, raise, gets, modify in *.

Lemma post_get_object_or_404 (pk : Z) (st : Store) :
  get_object_or_404 Post_objects_all pk st
  = (st, match posts st !! pk with
         | Some p => Ok (pk, p)
         | None => Raise Http404
         end).
Proof.
  unfold get_object_or_404, qs_get, filter_pk, Post_objects_all.
  rewrite filter_key_map_to_list_all. by destruct (posts st !! pk).
Qed.

(** [get_object] of the single-comment view reads the comments table at
    [pk] and compares the parent of the row with [post_pk]. *)
Lemma comment_get_object (post_pk pk : Z) (st : Store) :
  CommentRetrieveUpdateDestroyAPIView.get_object post_pk pk st
  = (st, match comments st !! pk with
         | Some c => if decide (Comment.post_id c = post_pk)
                     then Ok (pk, c) else Raise Http404
         | None => Raise Http404
         end).
Proof.
  unfold CommentRetrieveUpdateDestroyAPIView.get_object,
    CommentRetrieveUpdateDestroyAPIView.get_queryset,
    get_object_or_404, qs_get, filter_pk, filter_post_id, Comment_objects_all.
  rewrite filter_key_map_to_list.
  destruct (comments st !! pk) as [c|]; [|done]. simpl.
  by destruct (decide (Comment.post_id c = post_pk)).
Qed.

(** [Comment.objects.get(id=comment_id, post=instance)] never meets two
    rows: it returns the row or raises [DoesNotExist]. *)
Lemma get_comment_lookup (comment_id : Z) (instance : PostInstance) (st : Store) :
  PostSerializer.get_comment comment_id instance st
  = (st, match comments st !! comment_id with
         | Some c => if decide (Comment.post_id c = instance.1)
                     then Ok (comment_id, c) else Raise DoesNotExist
         | None => Raise DoesNotExist
         end).
Proof.
  unfold PostSerializer.get_comment, qs_get, filter_pk, filter_post_id,
    Comment_objects_all.
  rewrite filter_key_map_to_list.
  destruct (comments st !! comment_id) as [c|]; [|done]. simpl.
  by destruct (decide (Comment.post_id c = instance.1)).
Qed.

(** The comments of a post, as a queryset sees them. *)
Lemma elem_of_filter_post_id (p : Z) (st : Store) (c : CommentInstance) :
  c ∈ filter_post_id p Comment_objects_all st
  ↔ comments st !! c.1 = Some c.2 ∧ Comment.post_id c.2 = p.
Proof.
  unfold filter_post_id, Comment_objects_all.
  rewrite list_elem_of_filter, elem_of_map_to_list'. tauto.
Qed.

Lemma NoDup_filter_post_id (p : Z) (st : Store) :
  NoDup (filter_post_id p Comment_objects_all st).
Proof. apply NoDup_filter, NoDup_map_to_list. Qed.

(** ** Ordering *)

#[global] Instance newer_first_trans : Transitive newer_first.
Proof. unfold newer_first. intros a b c ??. lia. Qed.

#[global] Instance newer_first_total : Total newer_first.
Proof. unfold newer_first. intros a b. lia. Qed.

Lemma StronglySorted_lookup_lt {A} (R : relation A) (l : list A) :
  StronglySorted R l →
  ∀ (i j : nat) a b, (i < j)%nat → l !! i = Some a → l !! j = Some b → R a b.
Proof.
  induction 1 as [|x l Hl IH Hall]; intros i j a b Hij Hi Hj.
  - by rewrite lookup_nil in Hi.
  - destruct j as [|j]; [lia|]. simpl in Hj. destruct i as [|i].
    + simpl in Hi. inversion Hi; subst a.
      rewrite Forall_forall in Hall. apply Hall.
      apply list_elem_of_lookup. eauto.
    + simpl in Hi. apply (IH i j); [lia|done|done].
Qed.

(** ** Listing the comments of a post *)

(** C5. Listing the comments under post [P] answers 200 with exactly the
    stored comments whose parent is [P], each once, newest first: of two
    listed comments with different creation times, the one created later
    stands earlier in the list.  The store is left as it was. *)
Theorem comment_list_newest_first (st : Store) (P : Z) :
  ∃ l : list CommentInstance,
    run (CommentListCreateAPIView.list_ P) st = (st, Ok (200, l))
    ∧ NoDup l
    ∧ (∀ c, c ∈ l ↔ comments st !! c.1 = Some c.2 ∧ Comment.post_id c.2 = P)
    ∧ (∀ (i j : nat) a b,
         l !! i = Some a → l !! j = Some b →
         Comment.created_at a.2 < Comment.created_at b.2 → (j < i)%nat).
Proof.
  exists (CommentListCreateAPIView.get_queryset P st).
  unfold CommentListCreateAPIView.get_queryset, order_by_created_at_desc.
  set (qs := filter_post_id P Comment_objects_all st).
  pose proof (merge_sort_Permutation newer_first qs) as Hperm.
  split; [done|]. split; [|split].
  - rewrite Hperm. apply NoDup_filter_post_id.
  - intros c. rewrite Hperm. apply elem_of_filter_post_id.
  - intros i j a b Hi Hj Hlt.
    destruct (decide (j < i)%nat) as [|Hge]; [done|exfalso].
    destruct (decide (i = j)) as [->|Hne].
    + rewrite Hi in Hj. inversion Hj; subst. lia.
    + assert (newer_first a b) as Hab.
      { eapply (StronglySorted_lookup_lt newer_first); [|..|exact Hi|exact Hj].
        - apply StronglySorted_merge_sort; apply _.
        - lia. }
      unfold newer_first in Hab. lia.
Qed.

(** ** Referential integrity is an invariant *)

Section preserves.
Context (I : Store → Prop).

Lemma preserves_read_only {A} (c : M A) : read_only c → preserves I c.
Proof. intros Hc st HI. by rewrite Hc. Qed.

Lemma preserves_bind {A B} (c : M A) (k : A → M B) :
  preserves I c → (∀ a, preserves I (k a)) → preserves I (bind c k).
Proof.
  intros Hc Hk st HI. unfold bind. specialize (Hc st HI).
  destruct (c st) as [st' [a|e]]; simpl in *; [by apply Hk|done].
Qed.

Lemma preserves_for_each {A} (l : list A) (body : A → M unit) :
  (∀ x, preserves I (body x)) → preserves I (for_each l body).
Proof.
  intros Hbody. induction l as [|x l IH]; simpl.
  - by intros st HI.
  - apply preserves_bind; [apply Hbody|by intros _].
Qed.
End preserves.

Lemma read_only_ret {A} (a : A) : read_only (ret a).
Proof. done. Qed.

Lemma read_only_raise {A} (e : Exn) : read_only (raise (A:=A) e).
Proof. done. Qed.

Lemma read_only_gets {A} (f : Store → A) : read_only (gets f).
Proof. done. Qed.

Lemma read_only_bind {A B} (c : M A) (k : A → M B) :
  read_only c → (∀ a, read_only (k a)) → read_only (bind c k).
Proof.
  intros Hc Hk st. unfold bind. specialize (Hc st).
  destruct (c st) as [st' [a|e]]; simpl in *; subst; [apply Hk|done].
Qed.

Lemma read_only_qs_get {A} (qs : QuerySet A) : read_only (qs_get qs).
Proof. intros st. unfold qs_get. by destruct (qs st) as [|? [|? ?]]. Qed.

Lemma read_only_get_object_or_404 {A} (qs : QuerySet A) (k : Z) :
  read_only (get_object_or_404 qs k).
Proof.
  intros st. unfold get_object_or_404.
  pose proof (read_only_qs_get (filter_pk k qs) st) as H.
  destruct (qs_get (filter_pk k qs) st) as [st' [a|[]]]; done.
Qed.

Lemma read_only_comment_is_valid (partial : bool) (data : CommentBody) :
  read_only (CommentSerializer.is_valid partial data).
Proof.
  intros st. unfold CommentSerializer.is_valid.
  by repeat case_match.
Qed.

Lemma read_only_post_is_valid (partial : bool) (data : PostBody) :
  read_only (PostSerializer.is_valid partial data).
Proof.
  intros st. unfold PostSerializer.is_valid.
  by repeat case_match.
Qed.

Create HintDb blog.

#[local] Hint Resolve read_only_ret read_only_raise read_only_gets
  read_only_qs_get read_only_get_object_or_404 read_only_comment_is_valid
  read_only_post_is_valid : blog.

Lemma Post_save_fk (p : PostInstance) : preserves foreign_keys_ok (Post_save p).
Proof.
  intros st Hfk k c Hc. simpl in *. specialize (Hfk k c Hc). simpl in *.
  rewrite lookup_insert. case_decide; [by eexists|done].
Qed.

Lemma Post_objects_create_fk (title content : string) :
  preserves foreign_keys_ok (Post_objects_create title content).
Proof.
  intros st Hfk k c Hc. simpl in *. specialize (Hfk k c Hc). simpl in *.
  rewrite lookup_insert. case_decide; [by eexists|done].
Qed.

Lemma Comment_save_fk (c : CommentInstance) :
  preserves foreign_keys_ok (Comment_save c).
Proof.
  intros st Hfk. unfold Comment_save.
  destruct (posts st !! Comment.post_id c.2) as [p|] eqn:Hp; [|done].
  intros k c' Hc'. simpl in *. rewrite lookup_insert in Hc'.
  case_decide; [|by apply (Hfk k)].
  inversion Hc'; subst. destruct (comments st !! c.1); simpl; by rewrite Hp.
Qed.

Lemma Comment_objects_create_fk (kw : CommentData) :
  preserves foreign_keys_ok (Comment_objects_create kw).
Proof.
  intros st Hfk. unfold Comment_objects_create.
  destruct (cd_post kw) as [p|]; [|done].
  destruct (posts st !! p) as [row|] eqn:Hp; [|done].
  destruct (cd_id kw) as [k|]; [destruct (comments st !! k); [done|]|];
    intros k' c' Hc'; simpl in *; rewrite lookup_insert in Hc';
    (case_decide; [|by apply (Hfk k')]);
    inversion Hc'; subst; simpl; by rewrite Hp.
Qed.

Lemma Post_delete_fk (p : PostInstance) : preserves foreign_keys_ok (Post_delete p).
Proof.
  intros st Hfk k c Hc. simpl in *.
  apply map_lookup_filter_Some in Hc as [Hc Hne]. simpl in *.
  rewrite lookup_delete_ne by done. by apply (Hfk k).
Qed.

Lemma Comment_delete_fk (c : CommentInstance) :
  preserves foreign_keys_ok (Comment_delete c).
Proof.
  intros st Hfk k c' Hc'. simpl in *.
  apply lookup_delete_Some in Hc' as [_ Hc']. by apply (Hfk k).
Qed.

#[local] Hint Resolve Post_save_fk Post_objects_create_fk Comment_save_fk
  Comment_objects_create_fk Post_delete_fk Comment_delete_fk : blog.

Ltac preserves_tac :=
  repeat first
    [ solve [eauto with blog]
    | apply preserves_read_only; solve [eauto with blog]
    | apply preserves_bind; [|intros ?]
    | apply preserves_for_each; intros ? ].

Lemma PostSerializer_update_fk (instance : PostInstance) (validated_data : PostData) :
  preserves foreign_keys_ok (PostSerializer.update instance validated_data).
Proof.
  unfold PostSerializer.update, PostSerializer.super_update.
  apply preserves_bind; [eauto with blog|intros inst].
  apply preserves_bind; [|intros ?; by apply preserves_read_only].
  destruct (pd_comments validated_data) as [l|];
    [|by apply preserves_read_only].
  apply preserves_for_each. intros cd. unfold PostSerializer.merge_comment.
  destruct (truthy (cd_id cd)).
  - unfold PostSerializer.get_comment. preserves_tac.
  - unfold PostSerializer.create_comment.
    destruct (cd_post cd); preserves_tac.
Qed.

(** Every request keeps referential integrity, and the empty store has
    it. *)
Lemma foreign_keys_ok_empty (clock : Z) : foreign_keys_ok (empty_store clock).
Proof. intros k c. simpl. by rewrite lookup_empty. Qed.

Lemma foreign_keys_ok_advance_clock (d : Z) (st : Store) :
  foreign_keys_ok st → foreign_keys_ok (advance_clock d st).
Proof. done. Qed.

Lemma post_handlers_fk (partial : bool) (pk : Z) (data : PostBody) :
  preserves foreign_keys_ok PostListCreateAPIView.list_
  ∧ preserves foreign_keys_ok (PostListCreateAPIView.create data)
  ∧ preserves foreign_keys_ok (PostRetrieveUpdateDestroyAPIView.retrieve pk)
  ∧ preserves foreign_keys_ok (PostRetrieveUpdateDestroyAPIView.update partial pk data)
  ∧ preserves foreign_keys_ok (PostRetrieveUpdateDestroyAPIView.destroy pk).
Proof.
  pose proof PostSerializer_update_fk.
  unfold PostListCreateAPIView.list_, PostListCreateAPIView.create,
    PostRetrieveUpdateDestroyAPIView.retrieve,
    PostRetrieveUpdateDestroyAPIView.update,
    PostRetrieveUpdateDestroyAPIView.destroy,
    PostRetrieveUpdateDestroyAPIView.get_object,
    PostSerializer.create, PostSerializer.data.
  repeat split; preserves_tac.
Qed.

Lemma comment_handlers_fk (partial : bool) (post_pk pk : Z) (data : CommentBody) :
  preserves foreign_keys_ok (CommentListCreateAPIView.list_ post_pk)
  ∧ preserves foreign_keys_ok (CommentListCreateAPIView.create post_pk data)
  ∧ preserves foreign_keys_ok (CommentRetrieveUpdateDestroyAPIView.retrieve post_pk pk)
  ∧ preserves foreign_keys_ok
      (CommentRetrieveUpdateDestroyAPIView.update partial post_pk pk data)
  ∧ preserves foreign_keys_ok (CommentRetrieveUpdateDestroyAPIView.destroy post_pk pk).
Proof.
  unfold CommentListCreateAPIView.list_, CommentListCreateAPIView.create,
    CommentListCreateAPIView.perform_create,
    CommentSerializer.save_with_post, CommentSerializer.create,
    CommentSerializer.update,
    CommentRetrieveUpdateDestroyAPIView.retrieve,
    CommentRetrieveUpdateDestroyAPIView.update,
    CommentRetrieveUpdateDestroyAPIView.destroy,
    CommentRetrieveUpdateDestroyAPIView.get_object.
  repeat split; preserves_tac.
Qed.

Lemma two_posts_fk : foreign_keys_ok two_posts.
Proof.
  unfold two_posts, exec.
  apply post_handlers_fk; [exact true|exact 0|].
  apply foreign_keys_ok_advance_clock.
  apply post_handlers_fk; [exact true|exact 0|].
  apply foreign_keys_ok_empty.
Qed.

Lemma two_comments_fk : foreign_keys_ok two_comments.
Proof.
  assert (∀ data st, foreign_keys_ok st →
            foreign_keys_ok (exec (CommentListCreateAPIView.create 1 data) st))
    as Hcreate.
  { intros data st. exact (proj1 (proj2 (comment_handlers_fk true 1 0 data)) st). }
  unfold two_comments.
  apply Hcreate, foreign_keys_ok_advance_clock.
  apply Hcreate, foreign_keys_ok_advance_clock, two_posts_fk.
Qed.

(** ** Deleting a post *)

Lemma size_map_filter_length {A} (P : Z * A → Prop) `{!∀ x, Decision (P x)}
    (m : gmap Z A) :
  size (filter P m) = length (filter P (map_to_list m)).
Proof.
  rewrite map_filter_alt. apply map_size_list_to_map.
  eapply sublist_NoDup; [apply (NoDup_fst_map_to_list m)|].
  apply fmap_sublist, sublist_filter.
Qed.

(** The comments table splits into the comments of [P] and the others. *)
Lemma comments_size_split (st : Store) (P : Z) :
  size (comments st)
  = (size (filter (λ kc : Z * Comment.t, Comment.post_id kc.2 ≠ P) (comments st))
     + length (filter_post_id P Comment_objects_all st))%nat.
Proof.
  set (Q := λ kc : Z * Comment.t, Comment.post_id kc.2 ≠ P).
  rewrite <-(map_filter_union_complement Q (comments st)) at 1.
  rewrite map_size_disj_union by apply map_disjoint_filter_complement.
  f_equal. rewrite size_map_filter_length.
  unfold filter_post_id, Comment_objects_all. f_equal.
  apply list_filter_iff. intros [k c]. unfold Q. simpl.
  destruct (decide (Comment.post_id c = P)); naive_solver.
Qed.

(** C7. Deleting a stored post [P] answers 204, removes the post and
    removes every comment whose parent is [P]: the table shrinks by exactly
    the number of comments [P] had, the comments of other posts stay as
    they were, and retrieving any removed comment afterwards answers 404,
    under [P] and under every other post identifier the database accepts
    (an identifier outside its 64-bit integers is answered 500, see
    [filtering_on]). *)
Theorem post_destroy_cascades (st : Store) (P : Z) (p : Post.t) :
  posts st !! P = Some p →
  let st' := exec (PostRetrieveUpdateDestroyAPIView.destroy P) st in
  eval (PostRetrieveUpdateDestroyAPIView.destroy P) st = Ok (204, tt)
  ∧ posts st' !! P = None
  ∧ (∀ k c, comments st !! k = Some c → Comment.post_id c = P →
       comments st' !! k = None
       ∧ run (CommentRetrieveUpdateDestroyAPIView.retrieve P k) st'
         = (st', Raise Http404)
       ∧ ∀ post_pk, sqlite_integer post_pk →
           run (CommentRetrieveUpdateDestroyAPIView.retrieve post_pk k) st'
           = (st', Raise Http404))
  ∧ (∀ k c, comments st !! k = Some c → Comment.post_id c ≠ P →
       comments st' !! k = Some c)
  ∧ size (comments st)
    = (size (comments st') + length (filter_post_id P Comment_objects_all st))%nat.
Proof.
  intros Hp. unfold PostRetrieveUpdateDestroyAPIView.destroy,
    PostRetrieveUpdateDestroyAPIView.get_object,
    PostRetrieveUpdateDestroyAPIView.get_queryset.
  unfold_monad. rewrite post_get_object_or_404, Hp. simpl.
  split; [done|]. split; [apply lookup_delete_eq|]. split; [|split].
  - intros k c Hc Hpost.
    assert (filter (λ kc : Z * Comment.t, Comment.post_id kc.2 ≠ P) (comments st)
            !! k = None) as Hgone.
    { apply map_lookup_filter_None. right. intros c' Hc'. simpl.
      rewrite Hc in Hc'. inversion Hc'; subst. tauto. }
    assert (∀ post_pk,
              (CommentRetrieveUpdateDestroyAPIView.retrieve post_pk k)
                (set_posts (delete P)
                   (set_comments
                      (filter (λ kc : Z * Comment.t, Comment.post_id kc.2 ≠ P))
                      st))
              = (set_posts (delete P)
                   (set_comments
                      (filter (λ kc : Z * Comment.t, Comment.post_id kc.2 ≠ P))
                      st), Raise Http404)) as H404.
    { intros post_pk.
      unfold CommentRetrieveUpdateDestroyAPIView.retrieve. unfold_monad.
      rewrite comment_get_object. simpl. by rewrite Hgone. }
    split; [done|]. split; [apply H404|]. intros post_pk _. apply H404.
  - intros k c Hc Hne. by apply map_lookup_filter_Some.
  - apply comments_size_split.
Qed.

(** A sample of C7: post 1 of [two_comments] has both comments; deleting it
    leaves none, and comment 2 is no longer found under post 1. *)
Lemma post_destroy_cascades_witness :
  let st' := exec (PostRetrieveUpdateDestroyAPIView.destroy 1) two_comments in
  size (comments two_comments) = 2%nat
  ∧ size (comments st') = 0%nat
  ∧ run (CommentRetrieveUpdateDestroyAPIView.retrieve 1 2) st'
    = (st', Raise Http404).
Proof.
  intros st'.
  pose proof (post_destroy_cascades two_comments 1 (Post.mk "A" "B" 10 10)
                ltac:(by vm_compute)) as (_ & _ & Hgone & _ & Hsize).
  split; [by vm_compute|]. split; [by vm_compute|].
  apply (Hgone 2 (Comment.mk 1 "y" "yo" 13 13)); by vm_compute.
Defined.

(** ** The nested-comment merge of [PostSerializer.update] *)

Lemma truthy_Some (o : option Z) (i : Z) :
  truthy o = Some i ↔ o = Some i ∧ i ≠ 0.
Proof.
  unfold truthy. destruct o as [[| |]|]; split;
    first [ intros [= <-]; by split
          | intros [[= <-] ?]; done
          | intros [[=] ?]
          | intros [=] ].
Qed.

Lemma truthy_None (o : option Z) :
  truthy o = None ↔ o = Some 0 ∨ o = None.
Proof.
  unfold truthy. destruct o as [[| |]|]; split; intros H;
    try done; try (by left); try (by right); by destruct H.
Qed.

(** What one [save()] does to the comments table. *)
Lemma Comment_save_comments (c : CommentInstance) (st : Store) :
  (Comment_save c st).1 = st
  ∨ ∃ row, comments (Comment_save c st).1 = <[c.1 := row]> (comments st)
           ∧ posts (Comment_save c st).1 = posts st.
Proof.
  unfold Comment_save. destruct (posts st !! Comment.post_id c.2); [|by left].
  right. by eexists.
Qed.

(** What one [create()] does to the comments table: nothing, or one row
    under a key that was free. *)
Lemma Comment_objects_create_comments (kw : CommentData) (st : Store) :
  (Comment_objects_create kw st).1 = st
  ∨ ∃ k row, comments st !! k = None
             ∧ comments (Comment_objects_create kw st).1 = <[k := row]> (comments st)
             ∧ posts (Comment_objects_create kw st).1 = posts st.
Proof.
  unfold Comment_objects_create.
  destruct (cd_post kw) as [p|]; [|by left].
  destruct (posts st !! p); [|by left].
  destruct (cd_id kw) as [k|].
  - destruct (comments st !! k) eqn:Hk; [by left|]. right. by exists k; eexists.
  - right. eexists _, _. split; [apply next_pk_fresh|done].
Qed.

(** One iteration of the loop touches at most the row named by the
    element, and removes nothing. *)
Lemma merge_comment_frame (instance : PostInstance) (cd : CommentData) (st : Store) :
  let st' := (PostSerializer.merge_comment instance cd st).1 in
  posts st' = posts st
  ∧ (∀ k, is_Some (comments st !! k) → is_Some (comments st' !! k))
  ∧ (∀ k c, comments st !! k = Some c → cd_id cd ≠ Some k →
       comments st' !! k = Some c).
Proof.
  unfold PostSerializer.merge_comment.
  destruct (truthy (cd_id cd)) as [i|] eqn:Hid.
  - apply truthy_Some in Hid as [Hid Hnz]. unfold bind.
    rewrite get_comment_lookup.
    destruct (comments st !! i) as [c0|] eqn:Hi; [|done].
    destruct (decide (Comment.post_id c0 = instance.1)) as [Hparent|]; [|done].
    set (c' := CommentSerializer.setattrs (i, c0) cd).
    assert (c'.1 = i) as Hpk by (unfold c'; simpl; by rewrite Hid).
    destruct (Comment_save_comments c' st) as [Hsame | (row & Hrow & Hposts)].
    + destruct (Comment_save c' st) as [st1 [a|e]]; simpl in *; by subst.
    + destruct (Comment_save c' st) as [st1 [a|e]]; simpl in *;
        rewrite Hrow, Hpk; (split; [done|]); (split;
          [ intros k; rewrite lookup_insert; by case_decide
          | intros k c Hk Hne; rewrite lookup_insert_ne; [done|congruence] ]).
  - unfold PostSerializer.create_comment.
    destruct (cd_post cd); [done|]. unfold bind.
    match goal with |- context [Comment_objects_create ?kw st] =>
      destruct (Comment_objects_create_comments kw st)
        as [Hsame | (k' & row & Hfree & Hrow & Hposts)];
      destruct (Comment_objects_create kw st) as [st1 [a|e]]
    end; simpl in *; subst; try done;
      rewrite Hrow; (split; [done|]); (split;
        [ intros k; rewrite lookup_insert; by case_decide
        | intros k c Hk _; rewrite lookup_insert_ne; [done|congruence] ]).
Qed.

Lemma for_each_merge_comment_frame (instance : PostInstance)
    (l : list CommentData) (st : Store) :
  let st' := (for_each l (PostSerializer.merge_comment instance) st).1 in
  posts st' = posts st
  ∧ (∀ k, is_Some (comments st !! k) → is_Some (comments st' !! k))
  ∧ (∀ k c, comments st !! k = Some c → Some k ∉ cd_id <$> l →
       comments st' !! k = Some c).
Proof.
  revert st. induction l as [|cd l IH]; intros st; simpl; [done|].
  unfold bind.
  pose proof (merge_comment_frame instance cd st) as (Hp & Hdom & Hframe).
  destruct (PostSerializer.merge_comment instance cd st) as [st1 [[]|e]];
    simpl in *.
  - destruct (IH st1) as (Hp' & Hdom' & Hframe'). split; [congruence|]. split.
    + intros k Hk. by apply Hdom', Hdom.
    + intros k c Hk Hnot. apply not_elem_of_cons in Hnot as [Hne Hnot].
      apply Hframe'; [|done]. apply Hframe; [done|congruence].
  - split; [done|]. split; [done|].
    intros k c Hk Hnot. apply not_elem_of_cons in Hnot as [Hne Hnot].
    apply Hframe; [done|congruence].
Qed.

(** C8. Whatever [validated_data] holds and whether the update returns or
    raises part-way, [PostSerializer.update] deletes no comment, and every
    stored comment whose identifier is not the [id] of a submitted element
    is afterwards exactly the row it was. *)
Theorem update_keeps_other_comments (st : Store) (instance : PostInstance)
    (validated_data : PostData) :
  let st' := exec (PostSerializer.update instance validated_data) st in
  (∀ k, is_Some (comments st !! k) → is_Some (comments st' !! k))
  ∧ (∀ k c, comments st !! k = Some c →
       Some k ∉ cd_id <$> default [] (pd_comments validated_data) →
       comments st' !! k = Some c).
Proof.
  unfold PostSerializer.update, PostSerializer.super_update, Post_save.
  unfold_monad. simpl.
  destruct (pd_comments validated_data) as [l|]; simpl; [|done].
  match goal with
  | |- context [for_each l (PostSerializer.merge_comment ?i) ?st1] =>
    pose proof (for_each_merge_comment_frame i l st1) as (_ & Hdom & Hframe);
    destruct (for_each l (PostSerializer.merge_comment i) st1) as [st2 [[]|e]]
  end; simpl in *; done.
Qed.

(** The create branch: called on a stored post, without a [post] key in
    the element and with a free key when one is given, it inserts one row
    whose parent is the post. *)
Lemma create_comment_inserts (st : Store) (instance : PostInstance)
    (cd : CommentData) :
  cd_post cd = None → is_Some (posts st !! instance.1) →
  (∀ k, cd_id cd = Some k → comments st !! k = None) →
  ∃ k, comments st !! k = None
       ∧ (cd_id cd = None ∨ cd_id cd = Some k)
       ∧ run (PostSerializer.create_comment instance cd) st
         = (let row := Comment.mk instance.1 (default ""%string (cd_author cd))
                         (default ""%string (cd_content cd)) (now st) (now st) in
            (set_comments (insert k row)
               (set_comment_seq (Z.max (comment_seq st) k) st),
             Ok (k, row))).
Proof.
  intros Hpost [p Hp] Hfree.
  unfold run, PostSerializer.create_comment, Comment_objects_create.
  rewrite Hpost. simpl. rewrite Hp.
  destruct (cd_id cd) as [k|] eqn:Hid.
  - exists k. rewrite (Hfree k eq_refl). auto.
  - exists (next_pk (comment_seq st) (comments st)).
    split; [apply next_pk_fresh|]. split; [by left|].
    pose proof (next_pk_above (comment_seq st) (comments st)).
    by rewrite Z.max_r by lia.
Qed.

(** The create branch raises [TypeError] or [IntegrityError] when it
    raises: it looks nothing up. *)
Lemma create_comment_no_lookup (st : Store) (instance : PostInstance)
    (cd : CommentData) :
  eval (PostSerializer.create_comment instance cd) st ≠ Raise DoesNotExist.
Proof.
  unfold eval, PostSerializer.create_comment, Comment_objects_create, raise.
  simpl. by repeat case_match.
Qed.

(** X20. The update branch of the merge, on a comment of the post: every
    submitted field is set on the row and the row is saved; [updated_at]
    is then set by the server ([auto_now]), whatever was submitted for
    it. *)
Lemma merge_comment_existing_id (st : Store) (instance : PostInstance)
    (cd : CommentData) (i : Z) (c : Comment.t) :
  cd_id cd = Some i → i ≠ 0 →
  comments st !! i = Some c → Comment.post_id c = instance.1 →
  is_Some (posts st !! default (Comment.post_id c) (cd_post cd)) →
  run (PostSerializer.merge_comment instance cd) st
  = (set_comments
       (insert i (Comment.mk (default (Comment.post_id c) (cd_post cd))
                    (default (Comment.author c) (cd_author cd))
                    (default (Comment.content c) (cd_content cd))
                    (default (Comment.created_at c) (cd_created_at cd))
                    (now st)))
       (set_comment_seq (Z.max (comment_seq st) i) st),
     Ok tt).
Proof.
  intros Hid Hnz Hc Hparent [p Hp].
  unfold run, PostSerializer.merge_comment.
  rewrite (proj2 (truthy_Some (cd_id cd) i)) by done.
  unfold bind. rewrite get_comment_lookup, Hc, decide_True by done.
  unfold Comment_save, CommentSerializer.setattrs. simpl.
  rewrite Hp, Hid. simpl. by rewrite Hc.
Qed.

(** X21. The update branch of the merge, on an identifier that is not a
    comment of the post: [DoesNotExist], and nothing is written. *)
Lemma merge_comment_foreign_id (st : Store) (instance : PostInstance)
    (cd : CommentData) (i : Z) :
  cd_id cd = Some i → i ≠ 0 →
  (∀ c, comments st !! i = Some c → Comment.post_id c ≠ instance.1) →
  run (PostSerializer.merge_comment instance cd) st = (st, Raise DoesNotExist).
Proof.
  intros Hid Hnz Hforeign.
  unfold run, PostSerializer.merge_comment.
  rewrite (proj2 (truthy_Some (cd_id cd) i)) by done.
  unfold bind. rewrite get_comment_lookup.
  destruct (comments st !! i) as [c|] eqn:Hc; [|done].
  by rewrite decide_False by by apply Hforeign.
Qed.

(** ** Post update requests and the nested list *)

(** Through the view, the nested list never reaches
    [PostSerializer.update]: a request answers as the same request without
    its [comments] key, and the comments table is left as it was. *)
Lemma post_update_request_drops_comments (partial : bool) (pk : Z)
    (data : PostBody) (st : Store) :
  run (PostRetrieveUpdateDestroyAPIView.update partial pk data) st
  = run (PostRetrieveUpdateDestroyAPIView.update partial pk
           (mkPostBody (pb_title data) (pb_content data) None)) st
  ∧ comments (exec (PostRetrieveUpdateDestroyAPIView.update partial pk data) st)
    = comments st.
Proof.
  split; [done|].
  unfold PostRetrieveUpdateDestroyAPIView.update,
    PostRetrieveUpdateDestroyAPIView.get_object,
    PostRetrieveUpdateDestroyAPIView.get_queryset.
  unfold_monad. rewrite post_get_object_or_404.
  destruct (posts st !! pk) as [p|]; [|done].
  unfold PostSerializer.is_valid.
  destruct (run_field partial (pb_title data) _) as [t|]; [|done].
  destruct (run_field partial (pb_content data) _) as [c|]; done.
Qed.

(** C1. PATCH /posts/1/ with [nested_body] on a blog whose post 1 has
    comments 1 and 2 answers 200 and leaves the comments table as it was:
    comment 1 is not overwritten, no comment is created, and the unknown
    identifier 99 raises nothing.  Handed the same list directly,
    [PostSerializer.update] overwrites comment 1, creates comment 3 under
    post 1 and raises [DoesNotExist] at identifier 99. *)
Theorem post_update_request_ignores_nested_comments :
  let st := advance_clock 1 two_comments in
  let request := PostRetrieveUpdateDestroyAPIView.update true 1 nested_body in
  let direct :=
    PostSerializer.update (1, Post.mk "A" "B" 10 10)
      (mkPostData None None (pb_comments nested_body)) in
  status_code (eval request st) = 200
  ∧ comments (exec request st) = comments st
  ∧ eval direct st = Raise DoesNotExist
  ∧ comments (exec direct st) !! 1 = Some (Comment.mk 1 "x" "edited" 12 14)
  ∧ comments (exec direct st) !! 3 = Some (Comment.mk 1 "z" "new" 14 14).
Proof. intros st request direct. by vm_compute. Qed.

(** ** Comment requests and the post of the URL *)

(** X16. A successful update of a comment keeps its identifier and leaves
    it under the post its body names, and under the post of the URL only
    when the body names none. *)
Lemma comment_update_parent (partial : bool) (post_pk pk : Z)
    (data : CommentBody) (st : Store) (k : Z) (c : Comment.t) :
  eval (CommentRetrieveUpdateDestroyAPIView.update partial post_pk pk data) st
  = Ok (200, (k, c)) →
  k = pk
  ∧ Comment.post_id c = default post_pk (cb_post data)
  ∧ comments (exec (CommentRetrieveUpdateDestroyAPIView.update partial post_pk pk data) st)
    !! pk = Some c.
Proof.
  unfold CommentRetrieveUpdateDestroyAPIView.update. unfold_monad.
  rewrite comment_get_object.
  destruct (comments st !! pk) as [c0|] eqn:Hc0; [|done].
  destruct (decide (Comment.post_id c0 = post_pk)) as [Hparent|]; [|done].
  unfold CommentSerializer.is_valid.
  destruct (run_field partial (cb_post data) _) as [p|] eqn:Hp; [|done].
  destruct (run_field partial (cb_author data) _) as [a|]; [|done].
  destruct (run_field partial (cb_content data) _) as [t|]; [|done].
  unfold CommentSerializer.update, Comment_save. simpl.
  assert (default (Comment.post_id c0) p = default post_pk (cb_post data)) as Hq.
  { unfold run_field, PrimaryKeyRelatedField in Hp.
    destruct (cb_post data) as [q|]; simpl.
    - destruct (posts st !! q); inversion Hp; by subst.
    - destruct partial; inversion Hp; by subst. }
  destruct (posts st !! default (Comment.post_id c0) p); [|done].
  rewrite Hc0. simpl. intros [= <- <-]. simpl.
  split; [done|]. split; [done|]. by rewrite lookup_insert_eq.
Qed.

(** C2. PATCH /posts/1/comments/1/ with body [{"post": 2}] on a blog
    where comment 1 belongs to post 1 and post 2 exists answers 200 and
    leaves comment 1 attached to post 2: the comment is no longer found
    under the URL it was updated through, and is found under post 2. *)
Theorem comment_update_reparents :
  let st := advance_clock 1 two_comments in
  let request :=
    CommentRetrieveUpdateDestroyAPIView.update true 1 1
      (mkCommentBody (Some 2) None None) in
  comments st !! 1 = Some (Comment.mk 1 "x" "hi" 12 12)
  ∧ status_code (eval request st) = 200
  ∧ comments (exec request st) !! 1 = Some (Comment.mk 2 "x" "hi" 12 14)
  ∧ eval (CommentRetrieveUpdateDestroyAPIView.retrieve 1 1) (exec request st)
    = Raise Http404
  ∧ status_code
      (eval (CommentRetrieveUpdateDestroyAPIView.retrieve 2 1) (exec request st))
    = 200.
Proof. intros st request. by vm_compute. Qed.

(** ** Creating a comment *)

(** [perform_create] on validated data: 404 when the post of the URL is
    not stored; otherwise one new row whose parent is the post of the URL,
    whatever post the validated data names. *)
Lemma perform_create_attaches (post_pk : Z) (validated_data : CommentData)
    (st : Store) :
  cd_id validated_data = None →
  run (CommentListCreateAPIView.perform_create post_pk validated_data) st
  = match posts st !! post_pk with
    | None => (st, Raise Http404)
    | Some _ =>
      let k := next_pk (comment_seq st) (comments st) in
      let row := Comment.mk post_pk
                   (default ""%string (cd_author validated_data))
                   (default ""%string (cd_content validated_data))
                   (now st) (now st) in
      (set_comments (insert k row) (set_comment_seq k st), Ok (k, row))
    end.
Proof.
  intros Hid. unfold CommentListCreateAPIView.perform_create. unfold_monad.
  rewrite post_get_object_or_404.
  destruct (posts st !! post_pk) as [p|] eqn:Hp; [|done].
  unfold CommentSerializer.save_with_post, CommentSerializer.create,
    Comment_objects_create. simpl. by rewrite Hp, Hid.
Qed.

Lemma is_valid_no_id (partial : bool) (data : CommentBody) (st : Store)
    (validated_data : CommentData) :
  eval (CommentSerializer.is_valid partial data) st = Ok validated_data →
  cd_id validated_data = None.
Proof.
  unfold eval, CommentSerializer.is_valid.
  repeat case_match; simpl; try done. by intros [= <-].
Qed.

(** A body without [post] is refused before [perform_create] runs. *)
Lemma comment_create_requires_post (post_pk : Z) (data : CommentBody) (st : Store) :
  cb_post data = None →
  run (CommentListCreateAPIView.create post_pk data) st
  = (st, Raise ValidationError).
Proof.
  intros Hpost. unfold CommentListCreateAPIView.create,
    CommentSerializer.is_valid. unfold_monad. by rewrite Hpost.
Qed.

(** C3, as the code has it.  A comment-create request is validated first:
    a body that fails validation is answered with a validation error and
    nothing is written.  For a body that passes: when the post of the URL
    is not stored the answer is 404 and nothing is written; when it is
    stored the answer is 201 and one new comment is inserted under a fresh
    key whose parent is the post of the URL, whatever post the body
    names. *)
Theorem comment_create_after_validation (st : Store) (post_pk : Z)
    (data : CommentBody) :
  match eval (CommentSerializer.is_valid false data) st with
  | Raise _ =>
    run (CommentListCreateAPIView.create post_pk data) st
    = (st, Raise ValidationError)
  | Ok validated_data =>
    match posts st !! post_pk with
    | None =>
      run (CommentListCreateAPIView.create post_pk data) st
      = (st, Raise Http404)
    | Some _ =>
      let k := next_pk (comment_seq st) (comments st) in
      let row := Comment.mk post_pk
                   (default ""%string (cd_author validated_data))
                   (default ""%string (cd_content validated_data))
                   (now st) (now st) in
      comments st !! k = None
      ∧ run (CommentListCreateAPIView.create post_pk data) st
        = (set_comments (insert k row) (set_comment_seq k st),
           Ok (201, (k, row)))
    end
  end.
Proof.
  pose proof (read_only_comment_is_valid false data st) as Hro.
  pose proof (is_valid_no_id false data st) as Hid.
  unfold CommentListCreateAPIView.create. unfold_monad.
  destruct (CommentSerializer.is_valid false data st) as [st1 [vd|e]] eqn:Hv;
    simpl in *; subst st1.
  - pose proof (perform_create_attaches post_pk vd st (Hid vd eq_refl)) as Hpc.
    unfold run in Hpc. rewrite Hpc.
    destruct (posts st !! post_pk); [|done].
    split; [apply next_pk_fresh|done].
  - unfold CommentSerializer.is_valid in Hv.
    repeat case_match; by inversion Hv.
Qed.

(** A sample of C3: a body naming post 2, sent to /posts/1/comments/,
    makes a comment of post 1. *)
Lemma comment_create_after_validation_witness :
  let data := mkCommentBody (Some 2) (Some "x"%string) (Some "hi"%string) in
  run (CommentListCreateAPIView.create 1 data) (advance_clock 1 two_posts)
  = (set_comments (insert 1 (Comment.mk 1 "x" "hi" 12 12))
       (set_comment_seq 1 (advance_clock 1 two_posts)),
     Ok (201, (1, Comment.mk 1 "x" "hi" 12 12))).
Proof.
  intros data.
  exact (proj2 (comment_create_after_validation
                  (advance_clock 1 two_posts) 1 data)).
Defined.

(** C3 as stated fails: a request to a post that does not exist is not
    always answered 404.  A body without [author] sent to
    /posts/99/comments/ is answered with a validation error. *)
Lemma comment_create_unknown_post_not_always_404 :
  ¬ (∀ (st : Store) (post_pk : Z) (data : CommentBody),
       posts st !! post_pk = None →
       eval (CommentListCreateAPIView.create post_pk data) st = Raise Http404).
Proof.
  intros H.
  specialize (H two_posts 99 (mkCommentBody (Some 1) None (Some "hi"%string))).
  assert (posts two_posts !! 99 = None) as Hnone by by vm_compute.
  specialize (H Hnone). vm_compute in H. discriminate H.
Qed.

(** C4. On the blog with the single post 1, POST /posts/1/comments/ with
    a body holding only [author] and [content] is answered 400, not 201,
    and no comment is created: the serializer requires [post] in the
    body. *)
Theorem comment_create_without_post_rejected :
  let st := advance_clock 1 one_post in
  let request :=
    CommentListCreateAPIView.create 1
      (mkCommentBody None (Some "x"%string) (Some "hi"%string)) in
  posts st !! 1 = Some (Post.mk "A" "B" 10 10)
  ∧ run request st = (st, Raise ValidationError)
  ∧ status_code (eval request st) = 400
  ∧ comments (exec request st) = ∅.
Proof. intros st request. by vm_compute. Qed.

(** ** Routing *)

Lemma split_slash_segment (segment rest : string) :
  no_slash segment = true →
  split_slash (segment +:+ String "/" rest) = segment :: split_slash rest.
Proof.
  induction segment as [|c segment IH]; simpl; [done|].
  intros [Hc Hseg]%andb_prop. apply negb_true_iff in Hc.
  rewrite Hc. by rewrite IH.
Qed.

Lemma no_slash_digits (d : Decimal.uint) :
  no_slash (NilEmpty.string_of_uint d) = true.
Proof. induction d; simpl; done. Qed.

Lemma to_uint_nonnil (n : N) : N.to_uint n ≠ Decimal.Nil.
Proof.
  intros Hnil. pose proof (DecimalN.Unsigned.of_to n) as Hn.
  rewrite Hnil in Hn. simpl in Hn. by subst n.
Qed.

(** The two halves of the [int] converter agree. *)
Lemma int_to_python_to_url (value : Z) (segment : string) :
  int_to_url value = Some segment →
  int_to_python segment = Some value ∧ no_slash segment = true.
Proof.
  unfold int_to_url, int_to_python. case_decide as Hpos; [|done].
  intros [= <-]. pose proof (to_uint_nonnil (Z.to_N value)) as Hnil.
  rewrite NilZero.usu by done. rewrite DecimalN.Unsigned.of_to.
  rewrite Z2N.id by done. split; [done|].
  unfold NilZero.string_of_uint.
  destruct (N.to_uint (Z.to_N value)) eqn:Hd; try done;
    rewrite <-Hd; apply no_slash_digits.
Qed.

Lemma int_to_python_nonneg (segment : string) (value : Z) :
  int_to_python segment = Some value → 0 ≤ value.
Proof.
  unfold int_to_python. destruct (NilZero.uint_of_string segment); [|done].
  intros [= <-]. lia.
Qed.

Lemma int_to_url_nonneg (value : Z) : 0 ≤ value → is_Some (int_to_url value).
Proof. intros Hpos. unfold int_to_url. by rewrite decide_True. Qed.

Lemma resolve_reverse_path (route : Route) (path : string) :
  reverse route = Some path → resolve path = Some route.
Proof.
  destruct route as [|pk|post_pk|post_pk pk]; simpl.
  - by intros [= <-].
  - destruct (int_to_url pk) as [s|] eqn:Hs; [|done]. intros [= <-].
    apply int_to_python_to_url in Hs as [Hpy Hns]. unfold resolve.
    change ("posts/" +:+ s +:+ "/")
      with ("posts" +:+ String "/" (s +:+ String "/" "")).
    rewrite !split_slash_segment by done. simpl. by rewrite Hpy.
  - destruct (int_to_url post_pk) as [s|] eqn:Hs; [|done]. intros [= <-].
    apply int_to_python_to_url in Hs as [Hpy Hns]. unfold resolve.
    change ("posts/" +:+ s +:+ "/comments/")
      with ("posts" +:+ String "/"
              (s +:+ String "/" ("comments" +:+ String "/" ""))).
    rewrite !split_slash_segment by done. simpl. by rewrite Hpy.
  - destruct (int_to_url post_pk) as [s|] eqn:Hs; [|done].
    destruct (int_to_url pk) as [t|] eqn:Ht; [|done]. intros [= <-].
    apply int_to_python_to_url in Hs as [Hpys Hnss].
    apply int_to_python_to_url in Ht as [Hpyt Hnst]. unfold resolve.
    change ("posts/" +:+ s +:+ "/comments/" +:+ t +:+ "/")
      with ("posts" +:+ String "/"
              (s +:+ String "/"
                 ("comments" +:+ String "/" (t +:+ String "/" "")))).
    rewrite !split_slash_segment by done. simpl. by rewrite Hpys, Hpyt.
Qed.

Lemma resolve_nonneg (path : string) (route : Route) :
  resolve path = Some route →
  match route with
  | post_list => True
  | post_detail pk => 0 ≤ pk
  | comment_list post_pk => 0 ≤ post_pk
  | comment_detail post_pk pk => 0 ≤ post_pk ∧ 0 ≤ pk
  end.
Proof.
  unfold resolve.
  destruct (split_slash path) as [|a [|b [|c [|d [|e [|f l]]]]]]; try done.
  - case_decide; [|done]. by intros [= <-].
  - case_decide; [|done]. destruct (int_to_python b) eqn:Hb; [|done].
    intros [= <-]. by eapply int_to_python_nonneg.
  - case_decide; [|done]. destruct (int_to_python b) eqn:Hb; [|done].
    intros [= <-]. by eapply int_to_python_nonneg.
  - case_decide; [|done]. destruct (int_to_python b) eqn:Hb; [|done].
    destruct (int_to_python d) eqn:Hd; [|done].
    intros [= <-]. split; by eapply int_to_python_nonneg.
Qed.

(** X1. A path that [reverse] builds for a route resolves to that route
    with the same arguments. *)
Theorem resolve_reverse (route : Route) (path : string) :
  reverse route = Some path → resolve path = Some route.
Proof. apply resolve_reverse_path. Qed.

Lemma resolve_reverse_witness :
  reverse (comment_detail 1 22) = Some "posts/1/comments/22/"%string
  ∧ resolve "posts/1/comments/22/" = Some (comment_detail 1 22).
Proof.
  split; [reflexivity|].
  apply (resolve_reverse (comment_detail 1 22)). reflexivity.
Defined.

(** X2. The [int] converter accepts digits only, so every resolved route
    has non-negative arguments; such a route has a canonical path, which
    resolves to the same route (a path with leading zeros resolves as its
    canonical path does). *)
Theorem resolve_canonical (path : string) (route : Route) :
  resolve path = Some route →
  ∃ path', reverse route = Some path' ∧ resolve path' = Some route.
Proof.
  intros Hres. apply resolve_nonneg in Hres.
  assert (is_Some (reverse route)) as [path' Hrev].
  { destruct route as [|pk|post_pk|post_pk pk]; simpl.
    - by eexists.
    - destruct (int_to_url_nonneg pk Hres) as [s ->]. by eexists.
    - destruct (int_to_url_nonneg post_pk Hres) as [s ->]. by eexists.
    - destruct Hres as [H1 H2].
      destruct (int_to_url_nonneg post_pk H1) as [s ->].
      destruct (int_to_url_nonneg pk H2) as [t ->]. by eexists. }
  exists path'. split; [done|]. by apply resolve_reverse_path.
Qed.

Lemma resolve_canonical_witness :
  resolve "posts/007/comments/" = Some (comment_list 7)
  ∧ ∃ path', reverse (comment_list 7) = Some path'
             ∧ resolve path' = Some (comment_list 7).
Proof.
  split; [reflexivity|].
  apply (resolve_canonical "posts/007/comments/"). reflexivity.
Defined.

(** ** What validation lets through *)

Lemma CharField_Ok (max_length : option nat) (data value : string) :
  CharField max_length data = Ok value →
  value = strip data ∧ value ≠ ""%string
  ∧ ∀ n, max_length = Some n → (String.length value ≤ n)%nat.
Proof.
  unfold CharField. case_decide as Hblank; [done|].
  destruct (has_null (strip data)); [done|].
  destruct max_length as [n|].
  - destruct (n <? String.length (strip data))%nat eqn:Hlen; [done|].
    intros [= <-]. apply Nat.ltb_ge in Hlen.
    split; [done|]. split; [done|]. by intros ? [= <-].
  - intros [= <-]. done.
Qed.

Lemma run_field_Ok {A B} (partial : bool) (data : option A)
    (clean : A → result B) (o : option B) :
  run_field partial data clean = Ok o →
  (partial = true ∧ data = None ∧ o = None)
  ∨ ∃ x v, data = Some x ∧ clean x = Ok v ∧ o = Some v.
Proof.
  unfold run_field. destruct data as [x|].
  - destruct (clean x) as [v|] eqn:Hv; [|done]. intros [= <-]. right. eauto.
  - destruct partial; [|done]. intros [= <-]. by left.
Qed.

Lemma title_field_valid (partial : bool) (data : option string)
    (o : option string) (old : string) :
  run_field partial data (CharField (Some Post.title_max_length)) = Ok o →
  (partial = false → valid_title (default old o))
  ∧ (valid_title (default old o) ∨ default old o = old).
Proof.
  intros [(-> & -> & ->) | (x & v & -> & Hv & ->)]%run_field_Ok; simpl.
  - split; [done|by right].
  - apply CharField_Ok in Hv as (_ & Hne & Hlen).
    assert (valid_title v) by (split; [done|by apply Hlen]). auto.
Qed.

Lemma author_field_valid (partial : bool) (data : option string)
    (o : option string) (old : string) :
  run_field partial data (CharField (Some Comment.author_max_length)) = Ok o →
  (partial = false → valid_author (default old o))
  ∧ (valid_author (default old o) ∨ default old o = old).
Proof.
  intros [(-> & -> & ->) | (x & v & -> & Hv & ->)]%run_field_Ok; simpl.
  - split; [done|by right].
  - apply CharField_Ok in Hv as (_ & Hne & Hlen).
    assert (valid_author v) by (split; [done|by apply Hlen]). auto.
Qed.

Lemma text_field_valid (partial : bool) (data : option string)
    (o : option string) (old : string) :
  run_field partial data (CharField None) = Ok o →
  (partial = false → valid_text (default old o))
  ∧ (valid_text (default old o) ∨ default old o = old).
Proof.
  intros [(-> & -> & ->) | (x & v & -> & Hv & ->)]%run_field_Ok; simpl.
  - split; [done|by right].
  - apply CharField_Ok in Hv as (_ & Hne & _).
    assert (valid_text v) by done. auto.
Qed.

Lemma post_field_stored (partial : bool) (data : option Z) (o : option Z)
    (old : Z) (st : Store) :
  run_field partial data (PrimaryKeyRelatedField st) = Ok o →
  is_Some (posts st !! old) →
  is_Some (posts st !! default old o) ∧ default old o = default old data.
Proof.
  intros [(-> & -> & ->) | (x & v & -> & Hv & ->)]%run_field_Ok Hold; simpl;
    [done|].
  unfold PrimaryKeyRelatedField in Hv.
  destruct (posts st !! x) eqn:Hx; [|done]. inversion Hv; subst. by rewrite Hx.
Qed.

(** ** The writes of each view *)

Lemma post_create_effect (data : PostBody) (st : Store) :
  effect st (exec (PostListCreateAPIView.create data) st).
Proof.
  unfold PostListCreateAPIView.create, PostSerializer.is_valid,
    PostSerializer.create, PostSerializer.data, Post_objects_create.
  unfold_monad.
  destruct (run_field false (pb_title data) _) as [t|] eqn:Ht;
    [|apply effect_none].
  destruct (run_field false (pb_content data) _) as [c|] eqn:Hc;
    [|apply effect_none].
  simpl. apply effect_post_insert.
  - apply next_pk_fresh.
  - apply next_pk_above.
  - by apply (title_field_valid false (pb_title data)).
  - by apply (text_field_valid false (pb_content data)).
Qed.

Lemma post_update_effect (partial : bool) (pk : Z) (data : PostBody) (st : Store) :
  effect st (exec (PostRetrieveUpdateDestroyAPIView.update partial pk data) st).
Proof.
  unfold PostRetrieveUpdateDestroyAPIView.update,
    PostRetrieveUpdateDestroyAPIView.get_object,
    PostRetrieveUpdateDestroyAPIView.get_queryset.
  unfold_monad. rewrite post_get_object_or_404.
  destruct (posts st !! pk) as [p|] eqn:Hp; [|apply effect_none].
  unfold PostSerializer.is_valid.
  destruct (run_field partial (pb_title data) _) as [t|] eqn:Ht;
    [|apply effect_none].
  destruct (run_field partial (pb_content data) _) as [c|] eqn:Hc;
    [|apply effect_none].
  simpl. rewrite Hp. simpl. apply (effect_post_update st pk p); [done|..].
  - by apply (title_field_valid partial (pb_title data)).
  - by apply (text_field_valid partial (pb_content data)).
Qed.

Lemma post_destroy_effect (pk : Z) (st : Store) :
  effect st (exec (PostRetrieveUpdateDestroyAPIView.destroy pk) st).
Proof.
  unfold PostRetrieveUpdateDestroyAPIView.destroy,
    PostRetrieveUpdateDestroyAPIView.get_object,
    PostRetrieveUpdateDestroyAPIView.get_queryset.
  unfold_monad. rewrite post_get_object_or_404.
  destruct (posts st !! pk) as [p|] eqn:Hp; [|apply effect_none].
  simpl. by apply effect_post_delete.
Qed.

Lemma comment_create_effect (post_pk : Z) (data : CommentBody) (st : Store) :
  effect st (exec (CommentListCreateAPIView.create post_pk data) st).
Proof.
  pose proof (perform_create_attaches post_pk) as Hpc.
  unfold CommentListCreateAPIView.create, CommentSerializer.is_valid.
  unfold_monad.
  destruct (run_field false (cb_post data) _) as [p|] eqn:Hpost;
    [|apply effect_none].
  destruct (run_field false (cb_author data) _) as [a|] eqn:Ha;
    [|apply effect_none].
  destruct (run_field false (cb_content data) _) as [c|] eqn:Hc;
    [|apply effect_none].
  rewrite Hpc by done.
  destruct (posts st !! post_pk) as [row|] eqn:Hrow; [|apply effect_none].
  simpl. apply effect_comment_insert.
  - apply next_pk_fresh.
  - apply next_pk_above.
  - by rewrite Hrow.
  - by apply (author_field_valid false (cb_author data)).
  - by apply (text_field_valid false (cb_content data)).
Qed.

Lemma comment_update_effect (partial : bool) (post_pk pk : Z)
    (data : CommentBody) (st : Store) :
  effect st
    (exec (CommentRetrieveUpdateDestroyAPIView.update partial post_pk pk data) st).
Proof.
  unfold CommentRetrieveUpdateDestroyAPIView.update. unfold_monad.
  rewrite comment_get_object.
  destruct (comments st !! pk) as [c0|] eqn:Hc0; [|apply effect_none].
  destruct (decide (Comment.post_id c0 = post_pk)); [|apply effect_none].
  unfold CommentSerializer.is_valid.
  destruct (run_field partial (cb_post data) _) as [p|] eqn:Hpost;
    [|apply effect_none].
  destruct (run_field partial (cb_author data) _) as [a|] eqn:Ha;
    [|apply effect_none].
  destruct (run_field partial (cb_content data) _) as [c|] eqn:Hc;
    [|apply effect_none].
  unfold CommentSerializer.update, Comment_save. simpl.
  destruct (posts st !! default (Comment.post_id c0) p) as [row|] eqn:Hrow;
    [|apply effect_none].
  rewrite Hc0. simpl.
  apply (effect_comment_update st pk c0); [done|by rewrite Hrow|..].
  - by apply (author_field_valid partial (cb_author data)).
  - by apply (text_field_valid partial (cb_content data)).
Qed.

Lemma comment_destroy_effect (post_pk pk : Z) (st : Store) :
  effect st (exec (CommentRetrieveUpdateDestroyAPIView.destroy post_pk pk) st).
Proof.
  unfold CommentRetrieveUpdateDestroyAPIView.destroy. unfold_monad.
  rewrite comment_get_object.
  destruct (comments st !! pk) as [c0|] eqn:Hc0; [|apply effect_none].
  destruct (decide (Comment.post_id c0 = post_pk)); [|apply effect_none].
  simpl. apply effect_comment_delete. by rewrite Hc0.
Qed.

Lemma with_payload_exec {A} (f : A → Payload) (c : M (Z * A)) (st : Store) :
  (with_payload f c st).1 = (c st).1.
Proof.
  unfold with_payload. unfold_monad. by destruct (c st) as [st' [[status a]|e]].
Qed.

Lemma respond_exec (method : Method) (path : string) (body : Body) (st : Store) :
  (respond method path body st).1
  = match resolve path with
    | Some route =>
      match as_view route method body with
      | Some view => (view st).1
      | None => st
      end
    | None => st
    end.
Proof.
  unfold respond. destruct (resolve path) as [route|]; [|done].
  destruct (as_view route method body) as [view|]; [|done].
  by destruct (view st) as [st' [response|e]].
Qed.

Lemma filtering_on_run {A} (n : Z) (c : M A) (st : Store) :
  filtering_on n c st
  = if decide (sqlite_integer n) then c st else (st, Raise OverflowError).
Proof.
  unfold filtering_on, bind_parameter, bind, ret, raise.
  by destruct (decide (sqlite_integer n)).
Qed.

Lemma preserves_filtering_on {A} (I : Store → Prop) (n : Z) (c : M A) :
  preserves I c → preserves I (filtering_on n c).
Proof.
  intros Hc st HI. rewrite filtering_on_run.
  destruct (decide (sqlite_integer n)); [by apply Hc|done].
Qed.

Lemma respond_effect_any (method : Method) (path : string) (body : Body)
    (st : Store) :
  effect st (respond method path body st).1.
Proof.
  rewrite respond_exec. destruct (resolve path) as [route|]; [|apply effect_none].
  destruct route, method; simpl; rewrite ?filtering_on_run;
    try (case_decide; [|apply effect_none]); rewrite ?with_payload_exec;
    first
      [ apply post_create_effect
      | apply post_update_effect
      | apply post_destroy_effect
      | apply comment_create_effect
      | apply comment_update_effect
      | apply comment_destroy_effect
      | idtac ].
  all: try apply effect_none.
  - unfold PostRetrieveUpdateDestroyAPIView.retrieve,
      PostRetrieveUpdateDestroyAPIView.get_object. unfold_monad.
    rewrite post_get_object_or_404.
    destruct (posts st !! pk); apply effect_none.
  - unfold CommentRetrieveUpdateDestroyAPIView.retrieve. unfold_monad.
    rewrite comment_get_object.
    destruct (comments st !! pk) as [c|]; [|apply effect_none].
    destruct (decide (Comment.post_id c = post_pk)); apply effect_none.
Qed.

(** X3. Every request, whatever its method, path and body, writes at most
    one thing: it inserts one post or one comment under a fresh key with
    validated fields and both timestamps set to the server clock, or
    rewrites one stored row keeping its creation time and setting its
    update time to the clock, or deletes one post together with its
    comments, or deletes one comment. *)
Theorem respond_effect (method : Method) (path : string) (body : Body)
    (st : Store) :
  effect st (respond method path body st).1.
Proof. apply respond_effect_any. Qed.

(** ** Invariants of the API *)

Lemma effect_foreign_keys_ok (st st' : Store) :
  effect st st' → foreign_keys_ok st → foreign_keys_ok st'.
Proof.
  unfold foreign_keys_ok.
  destruct 1 as [|k t c Hk _ _ _|k row t c Hk _ _|k p a c Hk _ Hp _ _
                 |k row p a c Hk Hp _ _|k Hk|k Hk];
    intros Hfk i x Hx; simpl in *.
  - by apply (Hfk i).
  - specialize (Hfk i x Hx). simpl in Hfk. rewrite lookup_insert.
    case_decide; [by eexists|done].
  - specialize (Hfk i x Hx). simpl in Hfk. rewrite lookup_insert.
    case_decide; [by eexists|done].
  - rewrite lookup_insert in Hx. case_decide; [|by apply (Hfk i)].
    by inversion Hx; subst.
  - rewrite lookup_insert in Hx. case_decide; [|by apply (Hfk i)].
    by inversion Hx; subst.
  - apply map_lookup_filter_Some in Hx as [Hx Hne]. simpl in Hne.
    rewrite lookup_delete_ne by done. by apply (Hfk i).
  - apply lookup_delete_Some in Hx as [_ Hx]. by apply (Hfk i).
Qed.

Lemma effect_fields_ok (st st' : Store) :
  effect st st' → fields_ok st → fields_ok st'.
Proof.
  unfold fields_ok.
  destruct 1 as [|k t c Hk _ Ht Hc|k row t c Hk Ht Hc|k p a c Hk _ Hp Ha Hc
                 |k row p a c Hk Hp Ha Hc|k Hk|k Hk];
    intros [Hposts Hcomments]; simpl in *; [done|..].
  - split; [|done]. intros i x Hx. rewrite lookup_insert in Hx.
    case_decide; [|by apply (Hposts i)]. by inversion Hx; subst.
  - split; [|done]. intros i x Hx. rewrite lookup_insert in Hx.
    case_decide; [|by apply (Hposts i)]. inversion Hx; subst. simpl.
    destruct (Hposts _ _ Hk) as [Ht0 Hc0].
    split; [by destruct Ht as [ | -> ]|by destruct Hc as [ | -> ]].
  - split; [done|]. intros i x Hx. rewrite lookup_insert in Hx.
    case_decide; [|by apply (Hcomments i)]. by inversion Hx; subst.
  - split; [done|]. intros i x Hx. rewrite lookup_insert in Hx.
    case_decide; [|by apply (Hcomments i)]. inversion Hx; subst. simpl.
    destruct (Hcomments _ _ Hk) as [Ha0 Hc0].
    split; [by destruct Ha as [ | -> ]|by destruct Hc as [ | -> ]].
  - split.
    + intros i x Hx. apply lookup_delete_Some in Hx as [_ Hx].
      by apply (Hposts i).
    + intros i x Hx. apply map_lookup_filter_Some in Hx as [Hx _].
      by apply (Hcomments i).
  - split; [done|]. intros i x Hx. apply lookup_delete_Some in Hx as [_ Hx].
    by apply (Hcomments i).
Qed.

Lemma effect_now (st st' : Store) : effect st st' → now st' = now st.
Proof. by destruct 1. Qed.

Lemma effect_timestamps_ok (st st' : Store) :
  effect st st' → timestamps_ok st → timestamps_ok st'.
Proof.
  unfold timestamps_ok.
  destruct 1 as [|k t c Hk _ Ht Hc|k row t c Hk Ht Hc|k p a c Hk _ Hp Ha Hc
                 |k row p a c Hk Hp Ha Hc|k Hk|k Hk];
    intros [Hposts Hcomments]; simpl in *; [done|..].
  - split; [|done]. intros i x Hx. rewrite lookup_insert in Hx.
    case_decide; [|by apply (Hposts i)]. inversion Hx; subst. simpl. lia.
  - split; [|done]. intros i x Hx. rewrite lookup_insert in Hx.
    case_decide; [|by apply (Hposts i)]. inversion Hx; subst. simpl.
    specialize (Hposts _ _ Hk). simpl in Hposts. lia.
  - split; [done|]. intros i x Hx. rewrite lookup_insert in Hx.
    case_decide; [|by apply (Hcomments i)]. inversion Hx; subst. simpl. lia.
  - split; [done|]. intros i x Hx. rewrite lookup_insert in Hx.
    case_decide; [|by apply (Hcomments i)]. inversion Hx; subst. simpl.
    specialize (Hcomments _ _ Hk). simpl in Hcomments. lia.
  - split.
    + intros i x Hx. apply lookup_delete_Some in Hx as [_ Hx].
      by apply (Hposts i).
    + intros i x Hx. apply map_lookup_filter_Some in Hx as [Hx _].
      by apply (Hcomments i).
  - split; [done|]. intros i x Hx. apply lookup_delete_Some in Hx as [_ Hx].
    by apply (Hcomments i).
Qed.

Lemma effect_created_at (st st' : Store) :
  effect st st' →
  (∀ k row row', posts st !! k = Some row → posts st' !! k = Some row' →
     Post.created_at row' = Post.created_at row
     ∧ (Post.updated_at row' = Post.updated_at row
        ∨ Post.updated_at row' = now st))
  ∧ (∀ k row row', comments st !! k = Some row → comments st' !! k = Some row' →
       Comment.created_at row' = Comment.created_at row
       ∧ (Comment.updated_at row' = Comment.updated_at row
          ∨ Comment.updated_at row' = now st)).
Proof.
  destruct 1 as [|k t c Hk _ Ht Hc|k row0 t c Hk Ht Hc|k p a c Hk _ Hp Ha Hc
                 |k row0 p a c Hk Hp Ha Hc|k Hk|k Hk];
    simpl; split; intros i row row' Hrow Hrow';
    try (rewrite Hrow in Hrow'; inversion Hrow'; subst; by auto).
  - rewrite lookup_insert in Hrow'. case_decide; [congruence|].
    rewrite Hrow in Hrow'. inversion Hrow'; subst. auto.
  - rewrite lookup_insert in Hrow'. case_decide.
    + subst i. rewrite Hk in Hrow. inversion Hrow; inversion Hrow'; subst.
      simpl. auto.
    + rewrite Hrow in Hrow'. inversion Hrow'; subst. auto.
  - rewrite lookup_insert in Hrow'. case_decide; [congruence|].
    rewrite Hrow in Hrow'. inversion Hrow'; subst. auto.
  - rewrite lookup_insert in Hrow'. case_decide.
    + subst i. rewrite Hk in Hrow. inversion Hrow; inversion Hrow'; subst.
      simpl. auto.
    + rewrite Hrow in Hrow'. inversion Hrow'; subst. auto.
  - apply lookup_delete_Some in Hrow' as [_ Hrow'].
    rewrite Hrow in Hrow'. inversion Hrow'; subst. auto.
  - apply map_lookup_filter_Some in Hrow' as [Hrow' _].
    rewrite Hrow in Hrow'. inversion Hrow'; subst. auto.
  - apply lookup_delete_Some in Hrow' as [_ Hrow'].
    rewrite Hrow in Hrow'. inversion Hrow'; subst. auto.
Qed.

(** X4. Referential integrity is an invariant of the API: in every store
    reached from the empty one by requests and the passing of time, the
    parent of every comment is a stored post. *)
Theorem reachable_foreign_keys_ok (st : Store) :
  reachable st → foreign_keys_ok st.
Proof.
  induction 1 as [clock|d st _ _ IH|method path body st _ IH].
  - apply foreign_keys_ok_empty.
  - by apply foreign_keys_ok_advance_clock.
  - eapply effect_foreign_keys_ok; [apply respond_effect_any|done].
Qed.

Lemma reachable_sample_session : reachable sample_session.
Proof.
  unfold sample_session.
  apply reachable_respond, reachable_tick; [lia|].
  apply reachable_respond, reachable_empty.
Qed.

Lemma reachable_foreign_keys_ok_witness :
  reachable sample_session ∧ foreign_keys_ok sample_session.
Proof.
  split; [exact reachable_sample_session|].
  apply (reachable_foreign_keys_ok sample_session reachable_sample_session).
Defined.

(** X5. Field bounds are an invariant of the API: in every reachable store
    every post has a non-empty title of at most 100 characters and a
    non-empty content, and every comment has a non-empty author of at most
    50 characters and a non-empty content. *)
Theorem reachable_fields_ok (st : Store) : reachable st → fields_ok st.
Proof.
  induction 1 as [clock|d st _ _ IH|method path body st _ IH].
  - split; apply map_Forall_empty.
  - done.
  - eapply effect_fields_ok; [apply respond_effect_any|done].
Qed.

Lemma reachable_fields_ok_witness :
  reachable sample_session ∧ fields_ok sample_session.
Proof.
  split; [exact reachable_sample_session|].
  apply (reachable_fields_ok sample_session reachable_sample_session).
Defined.

(** X6. Timestamps are an invariant of the API: in every reachable store
    every row was created no later than it was last updated, and neither
    time lies after the server clock. *)
Theorem reachable_timestamps_ok (st : Store) : reachable st → timestamps_ok st.
Proof.
  induction 1 as [clock|d st Hd _ IH|method path body st _ IH].
  - split; apply map_Forall_empty.
  - destruct IH as [Hposts Hcomments]. split; intros k x Hx; simpl in *.
    + specialize (Hposts k x Hx). simpl in Hposts. lia.
    + specialize (Hcomments k x Hx). simpl in Hcomments. lia.
  - eapply effect_timestamps_ok; [apply respond_effect_any|done].
Qed.

Lemma reachable_timestamps_ok_witness :
  reachable sample_session ∧ timestamps_ok sample_session.
Proof.
  split; [exact reachable_sample_session|].
  apply (reachable_timestamps_ok sample_session reachable_sample_session).
Defined.

(** X7. No request changes the creation time of a row that it leaves
    stored, whatever the body carries; its update time stays or becomes
    the server clock. *)
Theorem respond_keeps_created_at (method : Method) (path : string)
    (body : Body) (st : Store) :
  let st' := (respond method path body st).1 in
  (∀ k row row', posts st !! k = Some row → posts st' !! k = Some row' →
     Post.created_at row' = Post.created_at row
     ∧ (Post.updated_at row' = Post.updated_at row
        ∨ Post.updated_at row' = now st))
  ∧ (∀ k row row', comments st !! k = Some row → comments st' !! k = Some row' →
       Comment.created_at row' = Comment.created_at row
       ∧ (Comment.updated_at row' = Comment.updated_at row
          ∨ Comment.updated_at row' = now st)).
Proof. apply effect_created_at, respond_effect_any. Qed.

(** A sample of X7: PATCH of post 1 with a new title at time 15 keeps its
    creation time 10. *)
Lemma respond_keeps_created_at_witness :
  let st := advance_clock 4 sample_session in
  let st' := (respond PATCH "posts/1/"
                (mkBody (Some "A2"%string) None None None None) st).1 in
  posts st !! 1 = Some (Post.mk "A" "B" 10 10)
  ∧ posts st' !! 1 = Some (Post.mk "A2" "B" 10 15)
  ∧ Post.created_at (Post.mk "A2" "B" 10 15) = 10.
Proof.
  intros st st'.
  assert (posts st !! 1 = Some (Post.mk "A" "B" 10 10)) as H1 by by vm_compute.
  assert (posts st' !! 1 = Some (Post.mk "A2" "B" 10 15)) as H2 by by vm_compute.
  split; [done|]. split; [done|].
  exact (proj1 (proj1 (respond_keeps_created_at PATCH "posts/1/"
                         (mkBody (Some "A2"%string) None None None None) st)
                  1 _ _ H1 H2)).
Defined.

(** ** Methods *)

Lemma keeps_rows_refl (st : Store) : keeps_rows st st.
Proof. by split. Qed.

Lemma Post_save_keeps_rows (st0 : Store) (p : PostInstance) :
  preserves (keeps_rows st0) (Post_save p).
Proof.
  intros st [Hp Hc]. split; [|done]. intros k Hk. simpl.
  rewrite lookup_insert. case_decide; [by eexists|by apply Hp].
Qed.

Lemma Post_objects_create_keeps_rows (st0 : Store) (title content : string) :
  preserves (keeps_rows st0) (Post_objects_create title content).
Proof.
  intros st [Hp Hc]. split; [|done]. intros k Hk. simpl.
  rewrite lookup_insert. case_decide; [by eexists|by apply Hp].
Qed.

Lemma Comment_save_keeps_rows (st0 : Store) (c : CommentInstance) :
  preserves (keeps_rows st0) (Comment_save c).
Proof.
  intros st [Hp Hc]. unfold Comment_save.
  destruct (posts st !! Comment.post_id c.2); [|done].
  split; [done|]. intros k Hk. simpl.
  rewrite lookup_insert. case_decide; [by eexists|by apply Hc].
Qed.

Lemma Comment_objects_create_keeps_rows (st0 : Store) (kw : CommentData) :
  preserves (keeps_rows st0) (Comment_objects_create kw).
Proof.
  intros st [Hp Hc].
  destruct (Comment_objects_create_comments kw st)
    as [-> | (k & row & _ & Hrow & Hposts)]; [done|].
  split; [by rewrite Hposts|]. intros i Hi. rewrite Hrow, lookup_insert.
  case_decide; [by eexists|by apply Hc].
Qed.

#[local] Hint Resolve Post_save_keeps_rows Post_objects_create_keeps_rows
  Comment_save_keeps_rows Comment_objects_create_keeps_rows : blog.

Lemma PostSerializer_update_keeps_rows (st0 : Store) (instance : PostInstance)
    (validated_data : PostData) :
  preserves (keeps_rows st0) (PostSerializer.update instance validated_data).
Proof.
  unfold PostSerializer.update, PostSerializer.super_update.
  apply preserves_bind; [eauto with blog|intros inst].
  apply preserves_bind; [|intros ?; by apply preserves_read_only].
  destruct (pd_comments validated_data) as [l|];
    [|by apply preserves_read_only].
  apply preserves_for_each. intros cd. unfold PostSerializer.merge_comment.
  destruct (truthy (cd_id cd)).
  - unfold PostSerializer.get_comment. preserves_tac.
  - unfold PostSerializer.create_comment.
    destruct (cd_post cd); preserves_tac.
Qed.

#[local] Hint Resolve PostSerializer_update_keeps_rows : blog.

Lemma respond_view_exec (method : Method) (path : string) (body : Body)
    (st : Store) (I : Store → Prop) :
  I st →
  (∀ route view, as_view route method body = Some view → preserves I view) →
  I (respond method path body st).1.
Proof.
  intros HI Hview. rewrite respond_exec.
  destruct (resolve path) as [route|]; [|done].
  destruct (as_view route method body) as [view|] eqn:Hv; [|done].
  by eapply Hview.
Qed.

Lemma preserves_with_payload {A} (I : Store → Prop) (f : A → Payload)
    (c : M (Z * A)) :
  preserves I c → preserves I (with_payload f c).
Proof. intros Hc st HI. rewrite with_payload_exec. by apply Hc. Qed.

(** X8. GET is safe: whatever the path and the body, a GET request leaves
    the store exactly as it was. *)
Theorem get_is_safe (path : string) (body : Body) (st : Store) :
  (respond GET path body st).1 = st.
Proof.
  apply (respond_view_exec GET path body st (λ s, s = st)); [done|].
  intros route view Hview st' ->.
  destruct route; simpl in Hview; inversion Hview; subst;
    rewrite ?filtering_on_run; try (case_decide; [|done]);
    rewrite with_payload_exec.
  - done.
  - unfold PostRetrieveUpdateDestroyAPIView.retrieve,
      PostRetrieveUpdateDestroyAPIView.get_object. unfold_monad.
    rewrite post_get_object_or_404. by destruct (posts st !! pk).
  - done.
  - unfold CommentRetrieveUpdateDestroyAPIView.retrieve. unfold_monad.
    rewrite comment_get_object. destruct (comments st !! pk) as [c|]; [|done].
    by destruct (decide (Comment.post_id c = post_pk)).
Qed.

(** X9. Only DELETE removes rows: after a request of any other method,
    every post and every comment that was stored is still stored. *)
Theorem only_delete_removes_rows (method : Method) (path : string)
    (body : Body) (st : Store) :
  method ≠ DELETE → keeps_rows st (respond method path body st).1.
Proof.
  intros Hmethod.
  apply (respond_view_exec method path body st (keeps_rows st));
    [apply keeps_rows_refl|].
  intros route view Hview.
  destruct route, method; simpl in Hview; inversion Hview; subst; try done;
    try apply preserves_filtering_on;
    apply preserves_with_payload;
    unfold PostListCreateAPIView.list_, PostListCreateAPIView.create,
      PostRetrieveUpdateDestroyAPIView.retrieve,
      PostRetrieveUpdateDestroyAPIView.update,
      PostRetrieveUpdateDestroyAPIView.get_object,
      PostSerializer.create, PostSerializer.data,
      CommentListCreateAPIView.list_, CommentListCreateAPIView.create,
      CommentListCreateAPIView.perform_create,
      CommentSerializer.save_with_post, CommentSerializer.create,
      CommentSerializer.update,
      CommentRetrieveUpdateDestroyAPIView.retrieve,
      CommentRetrieveUpdateDestroyAPIView.update,
      CommentRetrieveUpdateDestroyAPIView.get_object;
    preserves_tac.
Qed.

Lemma only_delete_removes_rows_witness :
  keeps_rows sample_session
    (respond PUT "posts/1/"
       (mkBody (Some "A2"%string) (Some "B2"%string) None None None)
       sample_session).1.
Proof. by apply (only_delete_removes_rows PUT). Defined.

(** ** Posts *)

Lemma CharField_bounded (n : nat) (data : string) :
  CharField (Some n) data
  = if decide ((strip data ≠ ""%string ∧ has_null (strip data) = false)
               ∧ (String.length (strip data) ≤ n)%nat)
    then Ok (strip data) else Raise ValidationError.
Proof.
  unfold CharField. case_decide as Hblank.
  - rewrite decide_False; [done|]. by intros [[? _] _].
  - destruct (has_null (strip data)) eqn:Hnull.
    { rewrite decide_False; [done|]. by intros [[_ ?] _]. }
    destruct (n <? String.length (strip data))%nat eqn:Hlen.
    + apply Nat.ltb_lt in Hlen. rewrite decide_False; [done|]. intros [_ ?]. lia.
    + apply Nat.ltb_ge in Hlen. by rewrite decide_True.
Qed.

Lemma CharField_unbounded (data : string) :
  CharField None data
  = if decide (strip data ≠ ""%string ∧ has_null (strip data) = false)
    then Ok (strip data) else Raise ValidationError.
Proof.
  unfold CharField. case_decide as Hblank.
  - rewrite decide_False; [done|]. by intros [? _].
  - destruct (has_null (strip data)) eqn:Hnull.
    + rewrite decide_False; [done|]. by intros [_ ?].
    + by rewrite decide_True.
Qed.

(** X10. POST /posts/ needs both [title] and [content]; each is stripped
    of surrounding whitespace and must then be non-empty and free of null
    characters, the title at most 100 characters long.  A body that meets
    this is answered 201 and stores one post under a fresh key with the
    stripped values and both timestamps set to the server clock; any other
    body is answered with a validation error and writes nothing. *)
Theorem post_create_outcome (data : PostBody) (st : Store) :
  match pb_title data, pb_content data with
  | Some title, Some content =>
    if decide (((strip title ≠ ""%string ∧ has_null (strip title) = false)
                ∧ (String.length (strip title) ≤ 100)%nat)
               ∧ (strip content ≠ ""%string
                  ∧ has_null (strip content) = false))
    then
      let k := next_pk (post_seq st) (posts st) in
      let row := Post.mk (strip title) (strip content) (now st) (now st) in
      posts st !! k = None
      ∧ run (PostListCreateAPIView.create data) st
        = (set_posts (insert k row) (set_post_seq k st),
           Ok (201, ((k, row), filter_post_id k Comment_objects_all st)))
    else run (PostListCreateAPIView.create data) st = (st, Raise ValidationError)
  | _, _ => run (PostListCreateAPIView.create data) st = (st, Raise ValidationError)
  end.
Proof.
  unfold PostListCreateAPIView.create, PostSerializer.is_valid,
    PostSerializer.create, PostSerializer.data, Post_objects_create,
    run_field, Post.title_max_length.
  unfold_monad.
  destruct (pb_title data) as [title|]; [|done].
  rewrite CharField_bounded.
  destruct (pb_content data) as [content|];
    [|by destruct (decide ((strip title ≠ ""%string ∧ _) ∧ _))].
  rewrite CharField_unbounded.
  destruct (decide ((strip title ≠ ""%string ∧ _) ∧ _)) as [Ht|Ht].
  - destruct (decide (strip content ≠ ""%string ∧ _)) as [Hc|Hc]; simpl.
    + rewrite decide_True by done. split; [apply next_pk_fresh|done].
    + by rewrite decide_False by (intros [_ ?]; done).
  - by rewrite decide_False by (intros [? _]; done).
Qed.

(** A sample of X10: a title with a null character is refused, although
    it is neither blank nor long. *)
Lemma post_create_outcome_witness :
  run (PostListCreateAPIView.create
         (mkPostBody (Some (String (Ascii.ascii_of_nat 65)
                              (String (Ascii.ascii_of_nat 0) "B")))
            (Some "C"%string) None)) (empty_store 10)
  = (empty_store 10, Raise ValidationError).
Proof.
  exact (post_create_outcome
           (mkPostBody (Some (String (Ascii.ascii_of_nat 65)
                                (String (Ascii.ascii_of_nat 0) "B")))
              (Some "C"%string) None) (empty_store 10)).
Defined.

(** X11. A post that POST /posts/ has just created is the post GET
    /posts/{id}/ returns, with the same representation; its key was not in
    use before; and in a store with referential integrity it has no
    comments. *)
Theorem post_create_then_retrieve (data : PostBody) (st : Store)
    (status : Z) (repr : PostInstance * list CommentInstance) :
  eval (PostListCreateAPIView.create data) st = Ok (status, repr) →
  let st' := exec (PostListCreateAPIView.create data) st in
  status = 201
  ∧ posts st !! repr.1.1 = None
  ∧ run (PostRetrieveUpdateDestroyAPIView.retrieve repr.1.1) st'
    = (st', Ok (200, repr))
  ∧ (foreign_keys_ok st → repr.2 = []).
Proof.
  unfold PostListCreateAPIView.create, PostSerializer.is_valid,
    PostSerializer.create, PostSerializer.data, Post_objects_create.
  unfold_monad.
  destruct (run_field false (pb_title data) _) as [t|]; [|done].
  destruct (run_field false (pb_content data) _) as [c|]; [|done].
  simpl. intros [= <- <-]. simpl.
  split; [done|]. split; [apply next_pk_fresh|]. split.
  - unfold PostRetrieveUpdateDestroyAPIView.retrieve,
      PostRetrieveUpdateDestroyAPIView.get_object,
      PostRetrieveUpdateDestroyAPIView.get_queryset, PostSerializer.data.
    unfold_monad. rewrite post_get_object_or_404. simpl.
    by rewrite lookup_insert_eq.
  - intros Hfk. apply elem_of_nil_inv. intros x Hx.
    apply elem_of_filter_post_id in Hx as [Hx Hparent].
    apply Hfk in Hx. rewrite Hparent, next_pk_fresh in Hx. by destruct Hx.
Qed.

Lemma post_create_then_retrieve_witness :
  let data := mkPostBody (Some " A "%string) (Some "B"%string) None in
  let st' := exec (PostListCreateAPIView.create data) (empty_store 10) in
  run (PostRetrieveUpdateDestroyAPIView.retrieve 1) st'
  = (st', Ok (200, ((1, Post.mk "A" "B" 10 10), []))).
Proof.
  intros data st'.
  apply (post_create_then_retrieve data (empty_store 10) 201
           ((1, Post.mk "A" "B" 10 10), [])).
  by vm_compute.
Defined.

(** X12. GET /posts/ returns every stored post exactly once, each with
    exactly the comments whose parent it is, and writes nothing. *)
Theorem post_list_complete (st : Store) :
  ∃ l : list (PostInstance * list CommentInstance),
    run PostListCreateAPIView.list_ st = (st, Ok (200, l))
    ∧ NoDup (l.*1).*1
    ∧ ∀ p cs, (p, cs) ∈ l
              ↔ posts st !! p.1 = Some p.2
                ∧ cs = filter_post_id p.1 Comment_objects_all st.
Proof.
  exists ((λ p, (p, filter_post_id p.1 Comment_objects_all st))
            <$> map_to_list (posts st)).
  split; [reflexivity|]. split.
  - assert (∀ (g : PostInstance → list CommentInstance) (L : list PostInstance),
              ((λ p, (p, g p)) <$> L).*1 = L) as Hfst.
    { intros g L. induction L as [|x L IH]; [done|].
      rewrite !fmap_cons. simpl. by rewrite IH. }
    rewrite (Hfst (λ p, filter_post_id p.1 Comment_objects_all st)).
    apply NoDup_fst_map_to_list.
  - intros p cs. rewrite list_elem_of_fmap. split.
    + intros (q & [= -> ->] & Hq). by apply elem_of_map_to_list' in Hq.
    + intros [Hp ->]. exists p. split; [done|]. by apply elem_of_map_to_list'.
Qed.

Lemma run_field_strip (partial : bool) (max_length : option nat)
    (data o : option string) :
  run_field partial data (CharField max_length) = Ok o →
  o = strip <$> data ∧ (partial = false → is_Some data).
Proof.
  intros [(-> & -> & ->) | (x & v & -> & Hv & ->)]%run_field_Ok; [done|].
  apply CharField_Ok in Hv as (-> & _). split; [done|]. by eexists.
Qed.

(** X13. PUT and PATCH /posts/{id}/ on a stored post with a body that
    passes validation answer 200 and rewrite that one row: every field
    the body gives is stored stripped, a field PATCH leaves out keeps its
    value (PUT must give both), the creation time is kept and the update
    time becomes the server clock.  The nested comments of the body are
    not part of the validated data, and the comments table is left as it
    was. *)
Theorem post_update_outcome (partial : bool) (pk : Z) (data : PostBody)
    (st : Store) (row : Post.t) (validated_data : PostData) :
  posts st !! pk = Some row →
  eval (PostSerializer.is_valid partial data) st = Ok validated_data →
  validated_data
  = mkPostData (strip <$> pb_title data) (strip <$> pb_content data) None
  ∧ (partial = false → is_Some (pb_title data) ∧ is_Some (pb_content data))
  ∧ run (PostRetrieveUpdateDestroyAPIView.update partial pk data) st
    = (let row' := Post.mk (default (Post.title row) (strip <$> pb_title data))
                     (default (Post.content row) (strip <$> pb_content data))
                     (Post.created_at row) (now st) in
       (set_posts (insert pk row') (set_post_seq (Z.max (post_seq st) pk) st),
        Ok (200, ((pk, row'), filter_post_id pk Comment_objects_all st)))).
Proof.
  intros Hrow.
  unfold PostRetrieveUpdateDestroyAPIView.update,
    PostRetrieveUpdateDestroyAPIView.get_object,
    PostRetrieveUpdateDestroyAPIView.get_queryset, PostSerializer.is_valid.
  unfold_monad. rewrite post_get_object_or_404, Hrow.
  destruct (run_field partial (pb_title data) _) as [t|] eqn:Ht; [|done].
  destruct (run_field partial (pb_content data) _) as [c|] eqn:Hc; [|done].
  apply run_field_strip in Ht as [-> Ht], Hc as [-> Hc].
  simpl. intros [= <-]. split; [done|]. split; [by auto|].
  by rewrite Hrow.
Qed.

Lemma post_update_outcome_witness :
  let st := advance_clock 4 sample_session in
  run (PostRetrieveUpdateDestroyAPIView.update true 1
         (mkPostBody (Some " A2 "%string) None None)) st
  = (set_posts (insert 1 (Post.mk "A2" "B" 10 15))
       (set_post_seq (Z.max (post_seq st) 1) st),
     Ok (200, ((1, Post.mk "A2" "B" 10 15),
               filter_post_id 1 Comment_objects_all st))).
Proof.
  intros st.
  apply (post_update_outcome true 1 (mkPostBody (Some " A2 "%string) None None)
           st (Post.mk "A" "B" 10 10) (mkPostData (Some "A2"%string) None None));
    by vm_compute.
Defined.

(** ** Comments *)

(** X14. The body of a comment-create request passes validation exactly
    when it names a stored post, gives an author that, once stripped, is
    non-empty, free of null characters and at most 50 characters long, and
    gives a content that, once stripped, is non-empty and free of null
    characters; the validated data are the post and the stripped strings,
    and never an identifier or a timestamp. *)
Theorem comment_is_valid_iff (data : CommentBody) (st : Store)
    (validated_data : CommentData) :
  eval (CommentSerializer.is_valid false data) st = Ok validated_data
  ↔ ∃ p a c,
      cb_post data = Some p ∧ is_Some (posts st !! p)
      ∧ cb_author data = Some a
      ∧ ((strip a ≠ ""%string ∧ has_null (strip a) = false)
         ∧ (String.length (strip a) ≤ 50)%nat)
      ∧ cb_content data = Some c
      ∧ (strip c ≠ ""%string ∧ has_null (strip c) = false)
      ∧ validated_data
        = mkCommentData None (Some p) (Some (strip a)) (Some (strip c)) None None.
Proof.
  unfold eval, CommentSerializer.is_valid, run_field, PrimaryKeyRelatedField,
    Comment.author_max_length.
  split.
  - destruct (cb_post data) as [p|]; [|done].
    destruct (posts st !! p) as [row|] eqn:Hrow; [|done].
    destruct (cb_author data) as [a|]; [|done]. rewrite CharField_bounded.
    destruct (decide ((strip a ≠ ""%string ∧ _) ∧ _)) as [Ha|]; [|done].
    destruct (cb_content data) as [c|]; [|done]. rewrite CharField_unbounded.
    destruct (decide (strip c ≠ ""%string ∧ _)) as [Hc|]; [|done].
    simpl. intros [= <-]. exists p, a, c. rewrite Hrow. eauto 10.
  - intros (p & a & c & -> & [row ->] & -> & Ha & -> & Hc & ->).
    rewrite CharField_bounded, CharField_unbounded.
    by rewrite !decide_True by done.
Qed.

(** X15. A comment that POST /posts/{post_id}/comments/ has just created
    is stored under a key that was free, belongs to the post of the URL,
    is what GET on its own URL returns, is not found under any other post
    identifier the database accepts, and is in the list of the comments of
    its post. *)
Theorem comment_create_then_retrieve (post_pk : Z) (data : CommentBody)
    (st : Store) (status k : Z) (c : Comment.t) :
  eval (CommentListCreateAPIView.create post_pk data) st = Ok (status, (k, c)) →
  let st' := exec (CommentListCreateAPIView.create post_pk data) st in
  status = 201
  ∧ comments st !! k = None
  ∧ Comment.post_id c = post_pk
  ∧ run (CommentRetrieveUpdateDestroyAPIView.retrieve post_pk k) st'
    = (st', Ok (200, (k, c)))
  ∧ (∀ q, sqlite_integer q → q ≠ post_pk →
       run (CommentRetrieveUpdateDestroyAPIView.retrieve q k) st'
       = (st', Raise Http404))
  ∧ ∃ l, run (CommentListCreateAPIView.list_ post_pk) st' = (st', Ok (200, l))
         ∧ (k, c) ∈ l.
Proof.
  pose proof (perform_create_attaches post_pk) as Hpc.
  pose proof (is_valid_no_id false data st) as Hid.
  pose proof (read_only_comment_is_valid false data st) as Hro.
  unfold CommentListCreateAPIView.create. unfold_monad.
  destruct (CommentSerializer.is_valid false data st) as [st1 [vd|e]];
    simpl in *; [subst st1|done].
  rewrite (Hpc vd st (Hid vd eq_refl)).
  destruct (posts st !! post_pk) as [row|]; [|done]. simpl.
  intros [= <- <- <-]. simpl.
  set (k := next_pk (comment_seq st) (comments st)).
  set (c := Comment.mk post_pk _ _ _ _).
  set (st' := set_comments (insert k c) (set_comment_seq k st)).
  assert (comments st' !! k = Some c) as Hk by apply lookup_insert_eq.
  split; [done|]. split; [apply next_pk_fresh|]. split; [done|].
  unfold CommentRetrieveUpdateDestroyAPIView.retrieve. unfold_monad.
  rewrite comment_get_object, Hk. split; [by rewrite decide_True|]. split.
  - intros q _ Hq. rewrite comment_get_object, Hk.
    by rewrite decide_False by done.
  - eexists. split; [reflexivity|].
    unfold CommentListCreateAPIView.get_queryset, order_by_created_at_desc.
    rewrite merge_sort_Permutation. by apply elem_of_filter_post_id.
Qed.

Lemma comment_create_then_retrieve_witness :
  let data := mkCommentBody (Some 2) (Some "x"%string) (Some "hi"%string) in
  let st := advance_clock 1 two_posts in
  let st' := exec (CommentListCreateAPIView.create 1 data) st in
  run (CommentRetrieveUpdateDestroyAPIView.retrieve 1 1) st'
  = (st', Ok (200, (1, Comment.mk 1 "x" "hi" 12 12))).
Proof.
  intros data st st'.
  apply (comment_create_then_retrieve 1 data st 201 1 (Comment.mk 1 "x" "hi" 12 12)).
  by vm_compute.
Defined.

(** A sample of the parent a comment has after an update: PATCH of
    comment 1 under post 1 with an author only leaves it under post 1. *)
Lemma comment_update_parent_witness :
  let st := advance_clock 1 two_comments in
  let request :=
    CommentRetrieveUpdateDestroyAPIView.update true 1 1
      (mkCommentBody None (Some "w"%string) None) in
  comments (exec request st) !! 1 = Some (Comment.mk 1 "w" "hi" 12 14).
Proof.
  intros st request.
  apply (comment_update_parent true 1 1 (mkCommentBody None (Some "w"%string) None)
           st 1 (Comment.mk 1 "w" "hi" 12 14)).
  by vm_compute.
Defined.

(** X17. After DELETE of a comment under its post, the comment is gone:
    GET on it answers 404 under its post and under every post identifier
    the database accepts, a second DELETE answers 404 and writes nothing,
    and the posts and the other comments are as they were. *)
Theorem comment_destroy_then_gone (post_pk pk : Z) (st : Store) (c : Comment.t) :
  comments st !! pk = Some c → Comment.post_id c = post_pk →
  let st' := exec (CommentRetrieveUpdateDestroyAPIView.destroy post_pk pk) st in
  eval (CommentRetrieveUpdateDestroyAPIView.destroy post_pk pk) st = Ok (204, tt)
  ∧ posts st' = posts st
  ∧ (∀ k, k ≠ pk → comments st' !! k = comments st !! k)
  ∧ run (CommentRetrieveUpdateDestroyAPIView.retrieve post_pk pk) st'
    = (st', Raise Http404)
  ∧ (∀ q, sqlite_integer q →
          run (CommentRetrieveUpdateDestroyAPIView.retrieve q pk) st'
          = (st', Raise Http404))
  ∧ run (CommentRetrieveUpdateDestroyAPIView.destroy post_pk pk) st'
    = (st', Raise Http404).
Proof.
  intros Hc Hparent.
  unfold CommentRetrieveUpdateDestroyAPIView.destroy,
    CommentRetrieveUpdateDestroyAPIView.retrieve.
  unfold_monad. rewrite comment_get_object, Hc, decide_True by done. simpl.
  split; [done|]. split; [done|]. split; [|split; [|split]].
  - intros k Hk. by rewrite lookup_delete_ne.
  - rewrite comment_get_object. simpl. by rewrite lookup_delete_eq.
  - intros q _. rewrite comment_get_object. simpl. by rewrite lookup_delete_eq.
  - rewrite comment_get_object. simpl. by rewrite lookup_delete_eq.
Qed.

Lemma comment_destroy_then_gone_witness :
  let st' := exec (CommentRetrieveUpdateDestroyAPIView.destroy 1 2) two_comments in
  run (CommentRetrieveUpdateDestroyAPIView.destroy 1 2) st' = (st', Raise Http404).
Proof.
  intros st'.
  apply (comment_destroy_then_gone 1 2 two_comments (Comment.mk 1 "y" "yo" 13 13));
    by vm_compute.
Defined.

(** ** The whole of [PostSerializer.update] *)

(** X18. [PostSerializer.update] saves the fields of the post before it
    looks at the comments: whatever the comments list holds, and whether
    the merge returns or raises, the post is afterwards stored with the
    submitted title and content, and no other post is touched. *)
Theorem update_saves_post_first (st : Store) (instance : PostInstance)
    (validated_data : PostData) :
  let st' := exec (PostSerializer.update instance validated_data) st in
  let title := default (Post.title instance.2) (pd_title validated_data) in
  let content := default (Post.content instance.2) (pd_content validated_data) in
  posts st'
  = <[instance.1 :=
        match posts st !! instance.1 with
        | Some _ => Post.mk title content (Post.created_at instance.2) (now st)
        | None => Post.mk title content (now st) (now st)
        end]> (posts st).
Proof.
  unfold PostSerializer.update, PostSerializer.super_update, Post_save.
  unfold_monad. simpl.
  destruct (pd_comments validated_data) as [l|]; simpl; [|done].
  match goal with
  | |- context [for_each l (PostSerializer.merge_comment ?i) ?st1] =>
    pose proof (for_each_merge_comment_frame i l st1) as (Hposts & _ & _);
    destruct (for_each l (PostSerializer.merge_comment i) st1) as [st2 [[]|e]]
  end; simpl in *; by rewrite Hposts.
Qed.

Lemma merge_comment_raise_unchanged (instance : PostInstance)
    (cd : CommentData) (st : Store) (e : Exn) :
  eval (PostSerializer.merge_comment instance cd) st = Raise e →
  exec (PostSerializer.merge_comment instance cd) st = st.
Proof.
  unfold PostSerializer.merge_comment. unfold_monad.
  destruct (truthy (cd_id cd)) as [i|].
  - rewrite get_comment_lookup.
    destruct (comments st !! i) as [c0|]; [|done].
    destruct (decide (Comment.post_id c0 = instance.1)); [|done].
    unfold Comment_save.
    by destruct (posts st !! _).
  - unfold PostSerializer.create_comment, Comment_objects_create, raise.
    destruct (cd_post cd); [done|]. simpl.
    destruct (posts st !! instance.1); [|done].
    destruct (cd_id cd) as [k|]; [|done].
    by destruct (comments st !! k).
Qed.

Lemma for_each_app {A} (l1 l2 : list A) (body : A → M unit) (st : Store) :
  for_each (l1 ++ l2) body st
  = match for_each l1 body st with
    | (st1, Ok _) => for_each l2 body st1
    | (st1, Raise e) => (st1, Raise e)
    end.
Proof.
  revert st. induction l1 as [|x l1 IH]; intros st; simpl; [done|].
  unfold bind. destruct (body x st) as [st1 [[]|e]]; [apply IH|done].
Qed.

(** X19. The merge stops at the first element that raises and rolls
    nothing back: when the update with the elements [l1] returns, leaving
    the store [st1], and the next element raises there, the update with
    [l1], that element and any further elements raises the same exception
    and leaves exactly [st1]; the further elements are never processed. *)
Theorem update_stops_at_first_failure (st st1 : Store)
    (instance instance' : PostInstance) (title content : option string)
    (l1 l2 : list CommentData) (cd : CommentData) (e : Exn) :
  run (PostSerializer.update instance (mkPostData title content (Some l1))) st
  = (st1, Ok instance') →
  eval (PostSerializer.merge_comment instance' cd) st1 = Raise e →
  run (PostSerializer.update instance
         (mkPostData title content (Some (l1 ++ cd :: l2)))) st
  = (st1, Raise e).
Proof.
  unfold PostSerializer.update, PostSerializer.super_update, Post_save.
  unfold_monad. simpl.
  set (inst := (instance.1, _)). set (st0 := set_posts _ _).
  rewrite for_each_app. simpl. unfold bind.
  destruct (for_each l1 (PostSerializer.merge_comment inst) st0)
    as [st1' [[]|e1]]; [|done].
  intros [= <- <-] Hraise.
  pose proof (merge_comment_raise_unchanged inst cd st1' e Hraise) as Hsame.
  unfold eval, exec in *.
  destruct (PostSerializer.merge_comment inst cd st1') as [st2 [[]|e2]];
    simpl in *; [done|]. by inversion Hraise; subst.
Qed.

(** A sample of X19: after the elements for comment 1 and for a new
    comment, the element naming comment 99 raises; a fourth element is
    never reached and the first two writes stay. *)
Lemma update_stops_at_first_failure_witness :
  let st := advance_clock 1 two_comments in
  let instance := (1, Post.mk "A" "B" 10 10) in
  let l1 := [mkCommentData (Some 1) None None (Some "edited"%string) None None;
             mkCommentData None None (Some "z"%string) (Some "new"%string) None None] in
  let cd := mkCommentData (Some 99) None None (Some "ghost"%string) None None in
  let l2 := [mkCommentData None None (Some "q"%string) (Some "late"%string) None None] in
  run (PostSerializer.update instance (mkPostData None None (Some (l1 ++ cd :: l2)))) st
  = (exec (PostSerializer.update instance (mkPostData None None (Some l1))) st,
     Raise DoesNotExist).
Proof.
  intros st instance l1 cd l2.
  apply (update_stops_at_first_failure st _ instance (1, Post.mk "A" "B" 10 14)
           None None l1 l2 cd DoesNotExist); by vm_compute.
Defined.

(** A sample of X20: the element for comment 1 of post 1 with a new
    content rewrites that row. *)
Lemma merge_comment_existing_id_witness :
  let st := advance_clock 1 two_comments in
  let cd := mkCommentData (Some 1) None None (Some "edited"%string) None None in
  run (PostSerializer.merge_comment (1, Post.mk "A" "B" 10 10) cd) st
  = (set_comments (insert 1 (Comment.mk 1 "x" "edited" 12 14))
       (set_comment_seq (Z.max (comment_seq st) 1) st),
     Ok tt).
Proof.
  intros st cd.
  apply (merge_comment_existing_id st (1, Post.mk "A" "B" 10 10) cd 1
           (Comment.mk 1 "x" "hi" 12 12));
    [reflexivity|lia|by vm_compute|reflexivity|vm_compute; by eexists].
Defined.

(** A sample of X21: comment 1 belongs to post 1, so the element naming it
    under post 2 raises. *)
Lemma merge_comment_foreign_id_witness :
  let cd := mkCommentData (Some 1) None None (Some "edited"%string) None None in
  run (PostSerializer.merge_comment (2, Post.mk "C" "D" 11 11) cd) two_comments
  = (two_comments, Raise DoesNotExist).
Proof.
  intros cd.
  apply (merge_comment_foreign_id two_comments (2, Post.mk "C" "D" 11 11) cd 1);
    [reflexivity|lia|].
  intros c Hc. vm_compute in Hc. inversion Hc; subst. simpl. lia.
Defined.

(** ** Listing under an identifier that names no post *)

Lemma filter_post_id_unknown_post (st : Store) (P : Z) :
  foreign_keys_ok st → posts st !! P = None →
  filter_post_id P Comment_objects_all st = [].
Proof.
  intros Hfk Hnone. apply elem_of_nil_inv. intros c Hc.
  apply elem_of_filter_post_id in Hc as [Hc Hp].
  apply Hfk in Hc. rewrite Hp, Hnone in Hc. by destruct Hc.
Qed.

(** C6, as the code has it.  In a store with referential integrity, GET
    on the comment list of an identifier that names no post and that the
    database accepts as a 64-bit integer answers 200 with the empty list
    and writes nothing: the view filters comments and never looks the post
    up. *)
Theorem comment_list_unknown_post (st : Store) (P : Z) (path : string)
    (body : Body) :
  foreign_keys_ok st → posts st !! P = None → sqlite_integer P →
  resolve path = Some (comment_list P) →
  respond GET path body st = (st, (200, JComments []))
  ∧ run (CommentListCreateAPIView.list_ P) st = (st, Ok (200, [])).
Proof.
  intros Hfk Hnone Hrange Hpath.
  pose proof (filter_post_id_unknown_post st P Hfk Hnone) as Hempty.
  assert (run (CommentListCreateAPIView.list_ P) st = (st, Ok (200, [])))
    as Hlist.
  { unfold_monad. unfold CommentListCreateAPIView.list_, gets,
      CommentListCreateAPIView.get_queryset, order_by_created_at_desc.
    by rewrite Hempty. }
  split; [|done].
  unfold respond. rewrite Hpath. simpl.
  rewrite filtering_on_run, decide_True by done.
  unfold with_payload. unfold_monad. by rewrite Hlist.
Qed.

Lemma comment_list_unknown_post_witness :
  foreign_keys_ok two_comments
  ∧ posts two_comments !! 99 = None
  ∧ respond GET "posts/99/comments/" (mkBody None None None None None)
      two_comments
    = (two_comments, (200, JComments [])).
Proof.
  split; [exact two_comments_fk|]. split; [by vm_compute|].
  apply (comment_list_unknown_post two_comments 99 "posts/99/comments/");
    [exact two_comments_fk|by vm_compute|by vm_compute|by vm_compute].
Defined.

(** C6 as stated fails: 9223372036854775808 names no post of
    [two_comments], the route accepts it, and GET on its comment list is
    answered 500, not 200 with an empty list. *)
Lemma comment_list_unknown_post_overflow :
  foreign_keys_ok two_comments
  ∧ posts two_comments !! (2 ^ 63) = None
  ∧ resolve "posts/9223372036854775808/comments/" = Some (comment_list (2 ^ 63))
  ∧ respond GET "posts/9223372036854775808/comments/"
      (mkBody None None None None None) two_comments
    = (two_comments, (500, JNothing)).
Proof.
  split; [exact two_comments_fk|]. split; [by vm_compute|].
  split; by vm_compute.
Qed.

(** ** Single-comment requests *)

(** C9, as the code has it.  For a post identifier the database accepts,
    retrieve, update and delete of a single comment look the comment up by
    its identifier among the comments whose parent is the post of the URL.
    When the comment is stored under that post the three requests work on
    it; when the identifier is stored under another post, or not at all,
    each answers 404 and writes nothing, at the views and for the request
    as a whole.  The posts table is not read: two stores with the same
    comments give the same lookup. *)
Theorem single_comment_scoped_lookup (st : Store) (post_pk pk : Z) :
  sqlite_integer post_pk →
  (∀ c, comments st !! pk = Some c → Comment.post_id c = post_pk →
     run (CommentRetrieveUpdateDestroyAPIView.retrieve post_pk pk) st
     = (st, Ok (200, (pk, c)))
     ∧ run (CommentRetrieveUpdateDestroyAPIView.destroy post_pk pk) st
       = (set_comments (delete pk) st, Ok (204, tt))
     ∧ ∀ partial data,
         run (CommentRetrieveUpdateDestroyAPIView.update partial post_pk pk data) st
         = run (validated_data <- CommentSerializer.is_valid partial data ;;
                instance <- CommentSerializer.update (pk, c) validated_data ;;
                ret (200, instance)) st)
  ∧ ((∀ c, comments st !! pk = Some c → Comment.post_id c ≠ post_pk) →
     run (CommentRetrieveUpdateDestroyAPIView.retrieve post_pk pk) st
     = (st, Raise Http404)
     ∧ run (CommentRetrieveUpdateDestroyAPIView.destroy post_pk pk) st
       = (st, Raise Http404)
     ∧ (∀ partial data,
          run (CommentRetrieveUpdateDestroyAPIView.update partial post_pk pk data) st
          = (st, Raise Http404))
     ∧ ∀ method path body,
         resolve path = Some (comment_detail post_pk pk) → method ≠ POST →
         respond method path body st = (st, (404, JNothing)))
  ∧ (∀ st', comments st' = comments st →
     eval (CommentRetrieveUpdateDestroyAPIView.get_object post_pk pk) st'
     = eval (CommentRetrieveUpdateDestroyAPIView.get_object post_pk pk) st).
Proof.
  intros Hrange.
  unfold CommentRetrieveUpdateDestroyAPIView.retrieve,
    CommentRetrieveUpdateDestroyAPIView.destroy,
    CommentRetrieveUpdateDestroyAPIView.update.
  split; [|split].
  - intros c Hc Hp. unfold_monad. rewrite !comment_get_object, Hc.
    by rewrite !decide_True by done.
  - intros Hother.
    assert (CommentRetrieveUpdateDestroyAPIView.get_object post_pk pk st
            = (st, Raise Http404)) as H404.
    { rewrite comment_get_object.
      destruct (comments st !! pk) as [c|] eqn:Hc; [|done].
      by rewrite decide_False by by apply Hother. }
    split; [by unfold_monad; rewrite H404|].
    split; [by unfold_monad; rewrite H404|].
    split; [by intros; unfold_monad; rewrite H404|].
    intros method path body Hpath Hmethod. unfold respond. rewrite Hpath.
    destruct method; try done; simpl;
      rewrite filtering_on_run, decide_True by done;
      unfold with_payload, CommentRetrieveUpdateDestroyAPIView.retrieve,
        CommentRetrieveUpdateDestroyAPIView.destroy,
        CommentRetrieveUpdateDestroyAPIView.update;
      unfold_monad; by rewrite H404.
  - intros st' Heq. unfold eval.
    rewrite (comment_get_object post_pk pk st'), comment_get_object. simpl.
    by rewrite Heq.
Qed.

(** A sample of C9: comment 1 of [two_comments] lives under post 1, so GET
    /posts/2/comments/1/ is answered 404 although post 2 exists, and GET
    under post 1 finds it. *)
Lemma single_comment_scoped_lookup_witness :
  respond GET "posts/2/comments/1/" (mkBody None None None None None)
    two_comments
  = (two_comments, (404, JNothing))
  ∧ run (CommentRetrieveUpdateDestroyAPIView.retrieve 1 1) two_comments
    = (two_comments, Ok (200, (1, Comment.mk 1 "x" "hi" 12 12))).
Proof.
  split.
  - destruct (single_comment_scoped_lookup two_comments 2 1
                ltac:(by vm_compute)) as (_ & H404 & _).
    apply H404; [|by vm_compute|done].
    intros c Hc. vm_compute in Hc. inversion Hc; subst. simpl. lia.
  - destruct (single_comment_scoped_lookup two_comments 1 1
                ltac:(by vm_compute)) as (Hfound & _ & _).
    apply (Hfound (Comment.mk 1 "x" "hi" 12 12)); by vm_compute.
Defined.

(** C9 as stated fails: comment 1 of [two_comments] exists and belongs to
    post 1, the route accepts the post identifier 9223372036854775808, and
    GET on comment 1 under it is answered 500, not 404. *)
Lemma single_comment_lookup_overflow :
  comments two_comments !! 1 = Some (Comment.mk 1 "x" "hi" 12 12)
  ∧ resolve "posts/9223372036854775808/comments/1/"
    = Some (comment_detail (2 ^ 63) 1)
  ∧ respond GET "posts/9223372036854775808/comments/1/"
      (mkBody None None None None None) two_comments
    = (two_comments, (500, JNothing)).
Proof. split; [by vm_compute|]. split; by vm_compute. Qed.

(** ** An element without a true identifier *)

Lemma merge_comment_falsy (instance : PostInstance) (cd : CommentData) :
  cd_id cd = Some 0 ∨ cd_id cd = None →
  PostSerializer.merge_comment instance cd
  = (PostSerializer.create_comment instance cd ;;; ret tt).
Proof.
  intros Hfalsy%truthy_None. unfold PostSerializer.merge_comment.
  by rewrite Hfalsy.
Qed.

(** [update] on a list, as the loop over the list run after the post is
    saved. *)
Lemma update_run (instance : PostInstance) (title content : option string)
    (l : list CommentData) (st : Store) :
  let saved := Post_save (PostSerializer.setattrs instance
                            (mkPostData title content None)) st in
  (∃ row, saved.2 = Ok (instance.1, row)
          ∧ posts saved.1 !! instance.1 = Some row)
  ∧ run (PostSerializer.update instance (mkPostData title content (Some l))) st
    = match saved.2 with
      | Ok inst =>
        match for_each l (PostSerializer.merge_comment inst) saved.1 with
        | (st1, Ok _) => (st1, Ok inst)
        | (st1, Raise e) => (st1, Raise e)
        end
      | Raise e => (saved.1, Raise e)
      end.
Proof.
  unfold PostSerializer.update, PostSerializer.super_update, Post_save.
  unfold_monad. simpl. split.
  - eexists. split; [done|]. by rewrite lookup_insert_eq.
  - by destruct (for_each l _ _) as [st1 [[]|e]].
Qed.

(** C10, as the code has it.  When [PostSerializer.update] reaches an
    element whose [id] is 0 or missing (the elements before it having been
    merged), the element takes the create branch: no lookup is made and
    [DoesNotExist] is not raised.  [Comment.objects.create] is called with
    the post and the items of the element: with a [post] key among them
    the call raises [TypeError]; with [id] 0 and key 0 in use it raises
    [IntegrityError]; in both cases nothing is inserted.  Otherwise one
    comment is inserted whose parent is the post, under key 0 for [id] 0
    and under a fresh key for a missing [id], and the update returns. *)
Theorem falsy_id_takes_create_branch (st st1 : Store)
    (instance instance' : PostInstance) (title content : option string)
    (l1 : list CommentData) (cd : CommentData) :
  run (PostSerializer.update instance (mkPostData title content (Some l1))) st
  = (st1, Ok instance') →
  cd_id cd = Some 0 ∨ cd_id cd = None →
  let request :=
    PostSerializer.update instance
      (mkPostData title content (Some (l1 ++ [cd]))) in
  eval request st ≠ Raise DoesNotExist
  ∧ (is_Some (cd_post cd) → run request st = (st1, Raise TypeError))
  ∧ (cd_post cd = None → cd_id cd = Some 0 → is_Some (comments st1 !! 0) →
     run request st = (st1, Raise IntegrityError))
  ∧ (cd_post cd = None → (cd_id cd = Some 0 → comments st1 !! 0 = None) →
     ∃ k, comments st1 !! k = None
          ∧ (cd_id cd = Some 0 → k = 0)
          ∧ run request st
            = (set_comments
                 (insert k (Comment.mk instance.1
                              (default ""%string (cd_author cd))
                              (default ""%string (cd_content cd))
                              (now st1) (now st1)))
                 (set_comment_seq (Z.max (comment_seq st1) k) st1),
               Ok instance')).
Proof.
  intros Hprefix Hfalsy request. unfold request, eval.
  destruct (update_run instance title content l1 st)
    as ((row & Hsaved & Hrow) & Hl1).
  destruct (update_run instance title content (l1 ++ [cd]) st) as (_ & Hl).
  unfold run in *. rewrite Hl. rewrite Hl1 in Hprefix. clear Hl Hl1.
  set (saved := Post_save _ st) in *. rewrite Hsaved in *.
  pose proof (for_each_merge_comment_frame (instance.1, row) l1 saved.1)
    as (Hposts & _ & _).
  rewrite for_each_app.
  destruct (for_each l1 _ saved.1) as [st1' [[]|e1]]; [|done].
  inversion Hprefix; subst st1' instance'. clear Hprefix. simpl in Hposts.
  assert (is_Some (posts st1 !! instance.1)) as Hstored.
  { rewrite Hposts. by eexists. }
  simpl for_each. rewrite (merge_comment_falsy _ cd Hfalsy).
  pose proof (create_comment_no_lookup st1 (instance.1, row) cd) as Hno.
  pose proof (create_comment_inserts st1 (instance.1, row) cd) as Hins.
  unfold eval, run in *. unfold bind, ret.
  split; [|split; [|split]].
  - destruct (PostSerializer.create_comment _ cd st1) as [st2 [a|e]];
      simpl in *; [done|]. intros [= ->]. by apply Hno.
  - intros [p Hp]. unfold PostSerializer.create_comment. by rewrite Hp.
  - intros Hp Hid [c0 Hc0].
    unfold PostSerializer.create_comment, Comment_objects_create.
    rewrite Hp. simpl. destruct Hstored as [r ->]. by rewrite Hid, Hc0.
  - intros Hp Hfree.
    destruct (Hins Hp Hstored) as (k & Hk & Hkid & Hrun).
    { intros k Hk. destruct Hfalsy as [Hz|Hn]; [|congruence].
      rewrite Hz in Hk. inversion Hk; subst. by apply Hfree. }
    exists k. split; [done|]. split.
    + intros Hz. destruct Hkid as [Hn|Hs]; congruence.
    + by rewrite Hrun.
Qed.

(** A sample of C10: the update of post 1 of [two_posts] with one element
    whose [id] is 0 stores a comment of post 1 under key 0. *)
Lemma falsy_id_takes_create_branch_witness :
  let instance := (1, Post.mk "A" "B" 10 10) in
  let cd := mkCommentData (Some 0) None (Some "x"%string) (Some "hi"%string)
              None None in
  comments (exec (PostSerializer.update instance
                    (mkPostData None None (Some [cd]))) two_posts) !! 0
  = Some (Comment.mk 1 "x" "hi" 11 11).
Proof.
  intros instance cd.
  destruct (falsy_id_takes_create_branch two_posts
              (exec (PostSerializer.update instance (mkPostData None None (Some [])))
                 two_posts)
              instance (1, Post.mk "A" "B" 10 11) None None [] cd
              ltac:(by vm_compute) ltac:(by left))
    as (_ & _ & _ & Hins).
  destruct (Hins eq_refl ltac:(by intros _; vm_compute))
    as (k & _ & Hk & Hrun).
  rewrite (Hk eq_refl) in Hrun. unfold exec. simpl app in Hrun.
  unfold run in Hrun. rewrite Hrun. by vm_compute.
Defined.

(** C10 as stated fails: an element whose [id] is 0 does not always insert
    a comment.  Of two such elements in one update the second raises
    [IntegrityError], key 0 being in use, and one comment is stored, not
    two; and such an element with a [post] key raises [TypeError] and
    stores none. *)
Lemma falsy_id_not_always_inserted :
  let instance := (1, Post.mk "A" "B" 10 10) in
  let cd := mkCommentData (Some 0) None (Some "x"%string) (Some "hi"%string)
              None None in
  let with_post := mkCommentData (Some 0) (Some 1) (Some "x"%string)
                     (Some "hi"%string) None None in
  let twice := PostSerializer.update instance (mkPostData None None (Some [cd; cd])) in
  let keyed := PostSerializer.update instance
                 (mkPostData None None (Some [with_post])) in
  eval twice two_posts = Raise IntegrityError
  ∧ size (comments (exec twice two_posts)) = 1%nat
  ∧ eval keyed two_posts = Raise TypeError
  ∧ size (comments (exec keyed two_posts)) = 0%nat.
Proof. intros instance cd with_post twice keyed. by vm_compute. Qed.
